(** * jinja2._speedups: the HTML escaper and its entry points

    A shallow embedding of [src/jinja2/_speedups.c] (Python 2 C extension):
    the two lookup tables filled by [init_constants], the two-pass
    [escape_unicode], and the entry points [escape] and [soft_unicode].

    Conventions of the embedding.
    - [Py_UNICODE] is an unsigned code unit: [N].  The code only compares
      code units and uses them as table indices, it never computes on them.
    - [Py_ssize_t] values are [Z]; an addition whose result is not a
      [Py_ssize_t] of the platform is undefined behaviour and faults.
    - A [Py_UNICODE*] into a buffer is the [Z] offset from the start of the
      buffer; a buffer is the list of its cells.  The buffer of a unicode
      object of length [n] has [n + 1] cells, the last one holding 0, as
      CPython allocates it.
    - Reading or writing outside a buffer or a table faults.
    - A [PyObject*] is an index into the heap, or NULL.
    - The CPython functions that run arbitrary Python code, the allocator
      and the platform constants are the fields of the class [Runtime];
      every theorem holds for every runtime. *)

From Stdlib Require Import ZArith NArith Lia String Ascii DecimalString.
From stdpp Require Import base tactics option list strings.

Local Open Scope Z_scope.

(** ** Faults and the error monad of the pure passes *)

Inductive fault :=
  | OutOfBounds      (* access outside a buffer or a table *)
  | NullDeref        (* dereference of NULL *)
  | Overflow         (* signed overflow of a Py_ssize_t *)
  | BadCast          (* a PyObject* cast to a struct it does not point to *)
  | Dangling         (* a PyObject* that points to no object *)
  | OutOfFuel.       (* loop bound of the model exhausted *)

Inductive res (A : Type) :=
  | Done (a : A)
  | Fault (f : fault).
Arguments Done {A} a.
Arguments Fault {A} f.

#[export] Instance res_ret : MRet res := fun A a => Done a.
#[export] Instance res_bind : MBind res := fun A B k m =>
  match m with
  | Done a => k a
  | Fault f => Fault f
  end.

Definition of_option {A} (f : fault) (o : option A) : res A :=
  match o with
  | Some a => Done a
  | None => Fault f
  end.

(** ** Code units, sizes, pointers *)

Abbreviation Py_UNICODE := N.
Abbreviation Py_ssize_t := Z.

(** ** Objects, the heap and the interpreter state *)

Inductive PyTypeObject :=
  | PyBaseObject_Type
  | PyInt_Type
  | PyBool_Type
  | PyLong_Type
  | PyFloat_Type
  | PyNone_Type
  | PyString_Type
  | PyUnicode_Type
  | HeapType (tp_name : string) (tp_base : PyTypeObject).  (* a class statement *)

#[export] Instance PyTypeObject_eq_dec : EqDecision PyTypeObject.
Proof. solve_decision. Defined.

(** The C struct behind the object header. *)
Inductive PyData :=
  | IntData (ob_ival : Z)                                 (* PyIntObject *)
  | UnicodeData (length : Py_ssize_t) (str : list Py_UNICODE)
                                                          (* PyUnicodeObject *)
  | MethodData (im_self : nat)                            (* a bound method *)
  | OtherData.                                            (* never read here *)

Record PyObject := mkPyObject {
  ob_refcnt : Py_ssize_t;
  ob_type : PyTypeObject;
  ob_data : PyData;
}.

(** A [PyObject*]: the address of an object, or NULL. *)
Definition ptr := option nat.
Abbreviation NULL := (@None nat).

Inductive PyExc := PyExc_MemoryError | PyExc_AttributeError | PyExc_Exception.

(** The heap (an address is an index into it) and the error indicator. *)
Record interp := mkInterp {
  heap : list PyObject;
  curexc : option PyExc;
}.

(** State and fault monad of the C functions. *)
Definition M (A : Type) : Type := interp → res (A * interp).

#[export] Instance M_ret : MRet M := fun A a σ => Done (a, σ).
#[export] Instance M_bind : MBind M := fun A B k m σ =>
  match m σ with
  | Done (a, σ') => k a σ'
  | Fault f => Fault f
  end.

Definition lift {A} (r : res A) : M A := fun σ =>
  match r with
  | Done a => Done (a, σ)
  | Fault f => Fault f
  end.

Definition get_object (a : nat) : M PyObject := fun σ =>
  match heap σ !! a with
  | Some o => Done (o, σ)
  | None => Fault Dangling
  end.

Definition set_object (a : nat) (o : PyObject) : M unit := fun σ =>
  Done (tt, mkInterp (<[a := o]> (heap σ)) (curexc σ)).

(** [Py_TYPE(o)] *)
Definition Py_TYPE (a : nat) : M PyTypeObject :=
  o ← get_object a; mret (ob_type o).

(** [((PyUnicodeObject* )a)->length] and [->str] *)
Definition unicode_fields (a : nat) : M (Py_ssize_t * list Py_UNICODE) :=
  o ← get_object a;
  match ob_data o with
  | UnicodeData length str => mret (length, str)
  | _ => lift (Fault BadCast)
  end.

(** Store into the buffer [((PyUnicodeObject* )a)->str]. *)
Definition set_str (a : nat) (str : list Py_UNICODE) : M unit :=
  o ← get_object a;
  match ob_data o with
  | UnicodeData length _ =>
      set_object a (mkPyObject (ob_refcnt o) (ob_type o) (UnicodeData length str))
  | _ => lift (Fault BadCast)
  end.

(** [Py_INCREF(a)].  A reference count cannot overflow: every reference
    occupies memory. *)
Definition Py_INCREF (a : nat) : M unit :=
  o ← get_object a;
  set_object a (mkPyObject (ob_refcnt o + 1) (ob_type o) (ob_data o)).

Definition PyErr_Clear : M unit := fun σ =>
  Done (tt, mkInterp (heap σ) None).

Definition PyErr_NoMemory : M ptr := fun σ =>
  Done (NULL, mkInterp (heap σ) (Some PyExc_MemoryError)).

(** ** The CPython runtime the module is linked against *)

Class Runtime := {
  (** The largest [Py_ssize_t] of the platform. *)
  PY_SSIZE_T_MAX : Z;
  (** Whether the allocator can serve a unicode object of the given size. *)
  alloc_ok : interp → Z → bool;
  (** What fresh memory happens to hold. *)
  uninit : nat → Py_UNICODE;
  (** API functions that run arbitrary Python code. *)
  PyObject_Call : ptr → list nat → M ptr;
  PyObject_GetAttrString : nat → string → M ptr;
  PyObject_Unicode : nat → M ptr;
  _Py_Dealloc : nat → M unit;
  (** The address of [None]. *)
  Py_None : nat;
  (** The global [markup], which [init_constants] fetches from
      [jinja2.utils]. *)
  markup : ptr;
}.

Section Speedups.
Context `{Runtime}.

(** Signed addition of two [Py_ssize_t]; overflow is undefined. *)
Definition ssize_add (a b : Py_ssize_t) : res Py_ssize_t :=
  let r := a + b in
  if (- PY_SSIZE_T_MAX - 1 <=? r) && (r <=? PY_SSIZE_T_MAX)
  then Done r else Fault Overflow.

(** [*p] for a pointer [p] into [buf]. *)
Definition deref (buf : list Py_UNICODE) (p : Z) : res Py_UNICODE :=
  if p <? 0 then Fault OutOfBounds
  else of_option OutOfBounds (buf !! Z.to_nat p).

(** [Py_UNICODE_COPY(target + tp, source + sp, n)], which is [memcpy]:
    the [n] cells read and the [n] cells written must exist. *)
Definition Py_UNICODE_COPY (target : list Py_UNICODE) (tp : Z)
    (source : list Py_UNICODE) (sp : Z) (n : Py_ssize_t)
    : res (list Py_UNICODE) :=
  if (n <? 0) || (tp <? 0) || (sp <? 0) then Fault OutOfBounds
  else
    let k := Z.to_nat n in
    let t := Z.to_nat tp in
    let s := Z.to_nat sp in
    if ((s + k <=? length source) && (t + k <=? length target))%nat
    then Done (take t target ++ take k (drop s source) ++ drop (t + k) target)
    else Fault OutOfBounds.

(** ** The tables of [init_constants] (lines 16-37) *)

Definition ESCAPED_CHARS_TABLE_SIZE : N := 63.

(** Character constants of the source, as code units. *)
Definition chr (a : ascii) : Py_UNICODE := N_of_ascii a.
Definition QUOT : Py_UNICODE := chr "034".    (* the double quote, 34 *)
Definition APOS : Py_UNICODE := chr "039".    (* the single quote, 39 *)
Definition AMP  : Py_UNICODE := chr "&".
Definition LT   : Py_UNICODE := chr "<".
Definition GT   : Py_UNICODE := chr ">".

(** [UNICHR(x)]: the buffer of the unicode object decoded from the ASCII
    literal [x]; like every unicode buffer it ends with a 0 cell. *)
Definition UNICHR (x : string) : list Py_UNICODE :=
  map chr (list_ascii_of_string x) ++ [0%N].

Definition idx (c : Py_UNICODE) : nat := N.to_nat c.

(** [escaped_chars_repl]: static storage starts as all NULL, then the five
    assignments of [init_constants]. *)
Definition escaped_chars_repl : list (option (list Py_UNICODE)) :=
  <[idx GT := Some (UNICHR "&gt;")]>
  (<[idx LT := Some (UNICHR "&lt;")]>
  (<[idx AMP := Some (UNICHR "&amp;")]>
  (<[idx APOS := Some (UNICHR "&#39;")]>
  (<[idx QUOT := Some (UNICHR "&#34;")]>
  (replicate (N.to_nat ESCAPED_CHARS_TABLE_SIZE) None))))).

(** [escaped_chars_delta_len]: [memset] to 0, then the five assignments. *)
Definition escaped_chars_delta_len : list Py_ssize_t :=
  <[idx GT := 3]> (<[idx LT := 3]>
  (<[idx AMP := 4]> (<[idx APOS := 4]> (<[idx QUOT := 4]>
  (replicate (N.to_nat ESCAPED_CHARS_TABLE_SIZE) 0))))).

(** [escaped_chars_delta_len[c]] *)
Definition delta_len_at (c : Py_UNICODE) : res Py_ssize_t :=
  of_option OutOfBounds (escaped_chars_delta_len !! idx c).

(** [escaped_chars_repl[c]], a pointer that may be NULL *)
Definition repl_at (c : Py_UNICODE) : res (option (list Py_UNICODE)) :=
  of_option OutOfBounds (escaped_chars_repl !! idx c).

(** ** [escape_unicode], first pass (lines 60-66)

    The loop runs while the cell at [inp] is not 0 or [inp < inp_end]: the
    cell is read first, then the pointer is compared.  Returns
    [(delta, erepl)]. *)
Fixpoint scan_pass (fuel : nat) (str : list Py_UNICODE) (inp_end inp : Z)
    (delta erepl : Py_ssize_t) : res (Py_ssize_t * Py_ssize_t) :=
  match fuel with
  | O => Fault OutOfFuel
  | S fuel =>
    c ← deref str inp;
    if negb (c =? 0)%N || (inp <? inp_end) then
      hit ← (if (c <? ESCAPED_CHARS_TABLE_SIZE)%N
             then d ← delta_len_at c; mret (negb (d =? 0))
             else mret false);
      if hit : bool then
        d ← delta_len_at c;
        delta ← ssize_add delta d;
        erepl ← ssize_add erepl 1;
        scan_pass fuel str inp_end (inp + 1) delta erepl
      else scan_pass fuel str inp_end (inp + 1) delta erepl
    else mret (delta, erepl)
  end.

(** ** Second pass, inner loop (lines 82-90): look for the next substitution.

    [delta_len] is assigned by the condition whenever the bounds check
    passes and keeps its old value otherwise.  Returns
    [(next_escp, delta_len)]. *)
Fixpoint next_substitution (fuel : nat) (str : list Py_UNICODE) (inp_end : Z)
    (next_escp : Z) (delta_len : Py_ssize_t) : res (Z * Py_ssize_t) :=
  match fuel with
  | O => Fault OutOfFuel
  | S fuel =>
    if next_escp <? inp_end then
      c ← deref str next_escp;
      if (c <? ESCAPED_CHARS_TABLE_SIZE)%N then
        d ← delta_len_at c;
        if negb (d =? 0) then
          delta_len ← ssize_add d 1;
          mret (next_escp, delta_len)
        else next_substitution fuel str inp_end (next_escp + 1) d
      else next_substitution fuel str inp_end (next_escp + 1) delta_len
    else mret (next_escp, delta_len)
  end.

(** ** Second pass, outer loop (lines 80-103).

    Returns [(inp, out buffer, outp)] as they are when [erepl] runs out. *)
Fixpoint copy_pass (fuel : nat) (str : list Py_UNICODE) (inp_end : Z)
    (erepl : Py_ssize_t) (inp : Z) (out : list Py_UNICODE) (outp : Z)
    (delta_len : Py_ssize_t) : res (Z * list Py_UNICODE * Z) :=
  match fuel with
  | O => Fault OutOfFuel
  | S fuel =>
    if erepl >? 0 then
      '(next_escp, delta_len) ←
        next_substitution (length str) str inp_end inp delta_len;
      '(out, outp) ←
        (if next_escp >? inp then
           out ← Py_UNICODE_COPY out outp str inp (next_escp - inp);
           mret (out, outp + (next_escp - inp))
         else mret (out, outp));
      c ← deref str next_escp;
      r ← repl_at c;
      repl ← of_option NullDeref r;
      out ← Py_UNICODE_COPY out outp repl 0 delta_len;
      copy_pass fuel str inp_end (erepl - 1) (next_escp + 1) out
        (outp + delta_len) delta_len
    else mret (inp, out, outp)
  end.

(** [PyUnicode_FromUnicode(NULL, size)]: a new unicode object of [size] code
    units, reference count 1, whose buffer is undefined except for
    [str[0] = 0] and the terminator [str[size] = 0]; or NULL with
    MemoryError. *)
Definition PyUnicode_FromUnicode_NULL (size : Py_ssize_t) : M ptr := fun σ =>
  if size <? 0 then Fault Overflow
  else if alloc_ok σ size then
    let n := Z.to_nat size in
    let str := <[0%nat := 0%N]> (<[n := 0%N]> (map uninit (seq 0 (S n)))) in
    let o := mkPyObject 1 PyUnicode_Type (UnicodeData size str) in
    Done (Some (List.length (heap σ)), mkInterp (heap σ ++ [o]) (curexc σ))
  else PyErr_NoMemory σ.

(** [Py_DECREF(p)] *)
Definition Py_DECREF (p : ptr) : M unit :=
  match p with
  | None => lift (Fault NullDeref)
  | Some a =>
    o ← get_object a;
    set_object a (mkPyObject (ob_refcnt o - 1) (ob_type o) (ob_data o));;
    if ob_refcnt o - 1 =? 0 then _Py_Dealloc a else mret tt
  end.

(** [PyObject_CallFunctionObjArgs(callable, ..., NULL)]: the arguments end
    at the first NULL. *)
Fixpoint va_args (args : list ptr) : list nat :=
  match args with
  | Some a :: args => a :: va_args args
  | _ => []
  end.

Definition PyObject_CallFunctionObjArgs (callable : ptr) (args : list ptr)
    : M ptr :=
  PyObject_Call callable (va_args args).

(** [PyObject_CallObject(callable, NULL)] *)
Definition PyObject_CallObject (callable : nat) : M ptr :=
  PyObject_Call (Some callable) [].

(** Type checks of the object header. *)
Definition PyInt_CheckExact (t : PyTypeObject) : bool := bool_decide (t = PyInt_Type).
Definition PyLong_CheckExact (t : PyTypeObject) : bool := bool_decide (t = PyLong_Type).
Definition PyFloat_CheckExact (t : PyTypeObject) : bool := bool_decide (t = PyFloat_Type).
Definition PyBool_Check (t : PyTypeObject) : bool := bool_decide (t = PyBool_Type).

(** [PyUnicode_Check]: [unicode] or a type derived from it. *)
Fixpoint PyUnicode_Check (t : PyTypeObject) : bool :=
  match t with
  | PyUnicode_Type => true
  | HeapType _ base => PyUnicode_Check base
  | _ => false
  end.


(** ** [escape_unicode] (lines 49-108) *)
Definition escape_unicode (in_ : nat) : M ptr :=
  '(length, str) ← unicode_fields in_;
  let inp_end := 0 + length in
  '(delta, erepl) ← lift (scan_pass (S (List.length str)) str inp_end 0 0 0);
  if erepl =? 0 then
    Py_INCREF in_;;
    mret (Some in_)
  else
    size ← lift (ssize_add length delta);
    out ← PyUnicode_FromUnicode_NULL size;
    match out with
    | None => mret NULL
    | Some out =>
      '(_, ostr) ← unicode_fields out;
      '(inp, ostr, outp) ←
        lift (copy_pass (S (List.length str)) str inp_end erepl 0 ostr 0 0);
      ostr ← (if inp <? inp_end
              then lift (Py_UNICODE_COPY ostr outp str inp (length - (inp - 0)))
              else mret ostr);
      set_str out ostr;;
      mret (Some out)
    end.

(** ** [escape] (lines 111-146) *)
Definition escape (text : nat) : M ptr :=
  t ← Py_TYPE text;
  if PyInt_CheckExact t || PyLong_CheckExact t || PyFloat_CheckExact t
     || PyBool_Check t || (text =? Py_None)%nat
  then PyObject_CallFunctionObjArgs markup [Some text]
  else
    html ← PyObject_GetAttrString text "__html__";
    match html with
    | Some html =>
      rv ← PyObject_CallObject html;
      Py_DECREF (Some html);;
      mret rv
    | None =>
      PyErr_Clear;;
      t ← Py_TYPE text;
      let wrap (s : ptr) : M ptr :=
        rv ← PyObject_CallFunctionObjArgs markup [s];
        Py_DECREF s;;
        mret rv in
      if negb (PyUnicode_Check t) then
        unicode ← PyObject_Unicode text;
        match unicode with
        | None => mret NULL
        | Some unicode =>
          s ← escape_unicode unicode;
          Py_DECREF (Some unicode);;
          wrap s
        end
      else
        s ← escape_unicode text;
        wrap s
    end.

(** ** [soft_unicode] (lines 149-156) *)
Definition soft_unicode (s : nat) : M ptr :=
  t ← Py_TYPE s;
  if negb (PyUnicode_Check t) then PyObject_Unicode s
  else
    Py_INCREF s;;
    mret (Some s).

End Speedups.

(** * The specification of the escaper

    These definitions follow the words of the specification, not the code:
    the image of a code unit, the escaped text as the concatenation of the
    images, and the length delta of a code unit. *)

(** The code units of an ASCII literal. *)
Definition text (x : string) : list Py_UNICODE :=
  map chr (list_ascii_of_string x).

Definition image (c : Py_UNICODE) : list Py_UNICODE :=
  if (c =? QUOT)%N then text "&#34;"
  else if (c =? APOS)%N then text "&#39;"
  else if (c =? AMP)%N then text "&amp;"
  else if (c =? LT)%N then text "&lt;"
  else if (c =? GT)%N then text "&gt;"
  else [c].

Definition escape_text (s : list Py_UNICODE) : list Py_UNICODE :=
  flat_map image s.

Definition delta (c : Py_UNICODE) : Z :=
  if (c =? QUOT)%N || (c =? APOS)%N || (c =? AMP)%N then 4
  else if (c =? LT)%N || (c =? GT)%N then 3
  else 0.

(** A code unit is in the escape table when its delta is not 0. *)
Definition in_table (c : Py_UNICODE) : bool := negb (delta c =? 0).

Definition total_delta (s : list Py_UNICODE) : Z :=
  foldr (fun c acc => delta c + acc) 0 s.

Definition match_count (s : list Py_UNICODE) : Z :=
  Z.of_nat (length (filter (fun c => in_table c = true) s)).

(** The buffer of a unicode object holding [s]. *)
Definition buffer (s : list Py_UNICODE) : list Py_UNICODE := s ++ [0%N].

(** A text without any of the five characters. *)
Definition clean (s : list Py_UNICODE) : Prop :=
  Forall (fun c => in_table c = false) s.

(** Address [a] holds a unicode object (of any unicode type) whose text is
    [s]: its [length] field is the length of [s], a [Py_ssize_t], and its
    buffer is [s] followed by the terminator. *)
Definition unicode_at `{Runtime} (σ : interp) (a : nat) (s : list Py_UNICODE)
    : Prop :=
  ∃ o, heap σ !! a = Some o ∧
       ob_data o = UnicodeData (Z.of_nat (length s)) (buffer s) ∧
       Z.of_nat (length s) <= PY_SSIZE_T_MAX.

(** The state after [Py_INCREF(a)]. *)
Definition incref (a : nat) (σ : interp) : interp :=
  match heap σ !! a with
  | Some o =>
      mkInterp (<[a := mkPyObject (ob_refcnt o + 1) (ob_type o) (ob_data o)]>
                  (heap σ)) (curexc σ)
  | None => σ
  end.

(** The state after a successful allocation of a unicode object that is then
    filled with the text [s]. *)
Definition with_new_unicode (s : list Py_UNICODE) (σ : interp) : interp :=
  mkInterp (heap σ ++ [mkPyObject 1 PyUnicode_Type
                         (UnicodeData (Z.of_nat (length s)) (buffer s))])
           (curexc σ).

(** The state after a failed allocation. *)
Definition with_MemoryError (σ : interp) : interp :=
  mkInterp (heap σ) (Some PyExc_MemoryError).

(** The allocation that [escape_unicode] requests for the text [s], if it
    requests one, can be served: the escaped length is a [Py_ssize_t] and the
    allocator has room for it.  (Allocation failure is outside the contract
    of the escaper.) *)
Definition output_allocatable `{Runtime} (σ : interp) (s : list Py_UNICODE)
    : Prop :=
  clean s ∨
  (Z.of_nat (length (escape_text s)) <= PY_SSIZE_T_MAX ∧
   alloc_ok σ (Z.of_nat (length (escape_text s))) = true).

(** The five replacement sequences. *)
Definition replacements : list (list Py_UNICODE) :=
  [text "&#34;"; text "&#39;"; text "&amp;"; text "&lt;"; text "&gt;"].

(** A text without unescaped instance of the five characters: four of them
    do not occur, and every ampersand starts a replacement sequence. *)
Definition fully_escaped (t : list Py_UNICODE) : Prop :=
  (QUOT ∉ t) ∧ (APOS ∉ t) ∧ (LT ∉ t) ∧ (GT ∉ t) ∧
  ∀ i, t !! i = Some AMP → ∃ r, (r ∈ replacements) ∧ r `prefix_of` drop i t.

(** * A reference runtime

    One concrete CPython runtime, used to run the entry points on concrete
    heaps.  The theorems below hold for every runtime. *)

(** Modelled from the spec: the safe-text type [jinja2.utils.Markup], whose
    definition (jinja2/utils.py) is not among the sources.  The
    specification makes it a text type (section 4.4: an already safe value
    is a text sequence), and the docstring of [soft_unicode] relies on it
    (a markup string is not converted back to unicode), so it derives from
    [unicode]. *)
Definition Markup_Type : PyTypeObject := HeapType "Markup" PyUnicode_Type.

(** The text that [unicode(o)] gives for the objects the reference runtime
    knows how to print. *)
Definition ref_text_of (σ : interp) (a : nat) : option (list Py_UNICODE) :=
  o ← heap σ !! a;
  match ob_data o with
  | UnicodeData n str => Some (take (Z.to_nat n) str)
  | IntData n =>
      if bool_decide (ob_type o = PyBool_Type)
      then Some (text (if n =? 0 then "False" else "True"))
      else Some (text (NilZero.string_of_int (Z.to_int n)))
  | _ =>
      if bool_decide (ob_type o = PyNone_Type) then Some (text "None")
      else None
  end.

Definition ref_new_unicode (t : PyTypeObject) (s : list Py_UNICODE) : M ptr :=
  fun σ =>
    Done (Some (length (heap σ)),
          mkInterp (heap σ ++ [mkPyObject 1 t
                                 (UnicodeData (Z.of_nat (length s)) (buffer s))])
                   (curexc σ)).

Definition ref_raise (e : PyExc) : M ptr := fun σ =>
  Done (NULL, mkInterp (heap σ) (Some e)).

(** A new object of type [t] holding the text of the object at [a]. *)
Definition ref_new_text (t : PyTypeObject) (a : nat) : M ptr := fun σ =>
  match ref_text_of σ a with
  | Some s => ref_new_unicode t s σ
  | None => ref_raise PyExc_Exception σ
  end.

(** [unicode(o)]: an exact unicode object is returned as it is. *)
Definition ref_PyObject_Unicode (a : nat) : M ptr :=
  o ← get_object a;
  if bool_decide (ob_type o = PyUnicode_Type) then
    Py_INCREF a;; mret (Some a)
  else ref_new_text PyUnicode_Type a.

(** Only [Markup] objects have an [__html__] attribute; getting it creates
    a bound method. *)
Definition ref_new_method (self : nat) : M ptr := fun σ =>
  Done (Some (length (heap σ)),
        mkInterp (heap σ ++ [mkPyObject 1 PyBaseObject_Type (MethodData self)])
                 (curexc σ)).

Definition ref_PyObject_GetAttrString (a : nat) (name : string) : M ptr :=
  o ← get_object a;
  if bool_decide (name = "__html__") && bool_decide (ob_type o = Markup_Type)
  then ref_new_method a
  else ref_raise PyExc_AttributeError.

(** The address of the [Markup] type object in the reference runtime. *)
Definition ref_markup : nat := 1%nat.

(** Modelled from the spec: the constructor of [jinja2.utils.Markup], which
    is not among the sources.  Wrapping a value as safe yields the text of
    the value,
    tagged safe (section 8: [escape_value(42)] is the safe-tagged text 42);
    without arguments, the empty safe text.  The other callable of the
    reference runtime is the bound method [Markup.__html__], which returns
    its object. *)
Definition ref_PyObject_Call (callable : ptr) (args : list nat) : M ptr :=
  match callable with
  | None => ref_raise PyExc_Exception
  | Some c =>
    if (c =? ref_markup)%nat then
      match args with
      | [] => ref_new_unicode Markup_Type []
      | [a] => ref_new_text Markup_Type a
      | _ => ref_raise PyExc_Exception
      end
    else
      o ← get_object c;
      match ob_data o with
      | MethodData self => Py_INCREF self;; mret (Some self)
      | _ => ref_raise PyExc_Exception
      end
  end.

(** A 64-bit build with 4-byte code units; an allocation succeeds when its
    size in bytes is a [Py_ssize_t]; fresh memory holds a fill pattern; a
    deallocated object keeps its slot in the model. *)
Definition ref_runtime : Runtime := {|
  PY_SSIZE_T_MAX := 2 ^ 63 - 1;
  alloc_ok := fun _ n => n <=? (2 ^ 63 - 1) / 4 - 1;
  uninit := fun _ => 52651%N;
  PyObject_Call := ref_PyObject_Call;
  PyObject_GetAttrString := ref_PyObject_GetAttrString;
  PyObject_Unicode := ref_PyObject_Unicode;
  _Py_Dealloc := fun _ => mret tt;
  Py_None := 0%nat;
  markup := Some ref_markup;
|}.

(** A heap with [None], the [Markup] type object, and the given objects from
    address 2 on. *)
Definition ref_heap (objs : list PyObject) : interp :=
  mkInterp (mkPyObject 1 PyNone_Type OtherData
            :: mkPyObject 1 PyBaseObject_Type OtherData :: objs) None.

Definition ref_unicode_of (t : PyTypeObject) (s : list Py_UNICODE) : PyObject :=
  mkPyObject 1 t (UnicodeData (Z.of_nat (length s)) (buffer s)).

Definition ref_unicode (t : PyTypeObject) (x : string) : PyObject :=
  ref_unicode_of t (text x).

(** The reference runtime with an allocator that serves nothing. *)
Definition no_memory : Runtime := {|
  PY_SSIZE_T_MAX := 2 ^ 63 - 1;
  alloc_ok := fun _ _ => false;
  uninit := fun _ => 52651%N;
  PyObject_Call := ref_PyObject_Call;
  PyObject_GetAttrString := ref_PyObject_GetAttrString;
  PyObject_Unicode := ref_PyObject_Unicode;
  _Py_Dealloc := fun _ => mret tt;
  Py_None := 0%nat;
  markup := Some ref_markup;
|}.

(** The text of the object that an entry point returns. *)
Definition returned_text (r : res (ptr * interp)) : option (list Py_UNICODE) :=
  match r with
  | Done (Some a, σ) => ref_text_of σ a
  | _ => None
  end.

(** The type of the object that an entry point returns. *)
Definition returned_type (r : res (ptr * interp)) : option PyTypeObject :=
  match r with
  | Done (Some a, σ) => ob_type <$> heap σ !! a
  | _ => None
  end.

(** ** Concrete heaps *)

(** The heap with one unicode object, at address 2. *)
Definition heap_with (s : list Py_UNICODE) : interp :=
  ref_heap [ref_unicode_of PyUnicode_Type s].


(** A [Markup] object, at address 2. *)
Definition heap_with_markup : interp :=
  ref_heap [ref_unicode Markup_Type "<b>"].

(** The integer 7 as an instance of a class derived from [int], at
    address 2. *)
Definition heap_with_count : interp :=
  ref_heap [mkPyObject 1 (HeapType "Count" PyInt_Type) (IntData 7)].

(** The same heap after the conversion of that instance to text: the new
    unicode object is at address 3. *)
Definition heap_with_count_text : interp :=
  ref_heap [mkPyObject 1 (HeapType "Count" PyInt_Type) (IntData 7);
            ref_unicode PyUnicode_Type "7"].

(** A unicode object of two code units whose buffer has no terminator cell,
    at address 2. *)
Definition heap_unterminated : interp :=
  ref_heap [mkPyObject 1 PyUnicode_Type (UnicodeData 2 (text "ab"))].

(** Two texts and their concatenation, at the addresses 2, 3 and 4. *)
Definition heap_with_parts : interp :=
  ref_heap [ref_unicode PyUnicode_Type "a&"; ref_unicode PyUnicode_Type "<b";
            ref_unicode PyUnicode_Type "a&<b"].

Definition tom_and_jerry : list Py_UNICODE := text "Tom & Jerry".
Definition hello_world : list Py_UNICODE := text "hello world".
Definition with_nul : list Py_UNICODE := text "a<" ++ 0%N :: text ">b".

(** * [tb_set_next] (lines 159-183)

    The function links traceback objects, which are no part of the heap of
    the escaper above: it has a heap of its own here, whose objects are
    tracebacks, with their [tb_next] field, or anything else.  The argument
    tuple of a METH_VARARGS function is the list of its items. *)

Module Traceback.

Inductive PyTypeObject :=
  | PyTraceBack_Type
  | PyOther_Type (tp_name : string).

#[export] Instance PyTypeObject_eq_dec : EqDecision PyTypeObject.
Proof. solve_decision. Defined.

(** The C struct behind the object header; of a [PyTracebackObject] only
    the field [tb_next] is read or written here. *)
Inductive PyData :=
  | TracebackData (tb_next : ptr)
  | OtherData.

Record PyObject := mkPyObject {
  ob_refcnt : Py_ssize_t;
  ob_type : PyTypeObject;
  ob_data : PyData;
}.

Inductive PyExc := PyExc_TypeError.

Record interp := mkInterp {
  heap : list PyObject;
  curexc : option PyExc;
}.

Definition M (A : Type) : Type := interp → res (A * interp).

#[export] Instance M_ret : MRet M := fun A a σ => Done (a, σ).
#[export] Instance M_bind : MBind M := fun A B k m σ =>
  match m σ with
  | Done (a, σ') => k a σ'
  | Fault f => Fault f
  end.

Definition fail {A} (f : fault) : M A := fun _ => Fault f.

Definition get_object (a : nat) : M PyObject := fun σ =>
  match heap σ !! a with
  | Some o => Done (o, σ)
  | None => Fault Dangling
  end.

Definition set_object (a : nat) (o : PyObject) : M unit := fun σ =>
  Done (tt, mkInterp (<[a := o]> (heap σ)) (curexc σ)).

Definition Py_TYPE (a : nat) : M PyTypeObject :=
  o ← get_object a; mret (ob_type o).

(** [PyTraceBack_Check(v)]: the type of [v] is the traceback type. *)
Definition PyTraceBack_Check (t : PyTypeObject) : bool :=
  bool_decide (t = PyTraceBack_Type).

(** [((PyTracebackObject* )a)->tb_next] *)
Definition get_tb_next (a : nat) : M ptr :=
  o ← get_object a;
  match ob_data o with
  | TracebackData tb_next => mret tb_next
  | OtherData => fail BadCast
  end.

(** [((PyTracebackObject* )a)->tb_next = next] *)
Definition set_tb_next (a : nat) (next : ptr) : M unit :=
  o ← get_object a;
  match ob_data o with
  | TracebackData _ =>
      set_object a (mkPyObject (ob_refcnt o) (ob_type o) (TracebackData next))
  | OtherData => fail BadCast
  end.

Definition Py_INCREF (a : nat) : M unit :=
  o ← get_object a;
  set_object a (mkPyObject (ob_refcnt o + 1) (ob_type o) (ob_data o)).

(** [PyErr_SetString(exc, message)] *)
Definition PyErr_SetString (e : PyExc) : M unit := fun σ =>
  Done (tt, mkInterp (heap σ) (Some e)).

Class Runtime := {
  (** The address of [None]. *)
  Py_None : nat;
  (** The deallocator of an object whose reference count fell to 0. *)
  _Py_Dealloc : nat → M unit;
}.

Section TbSetNext.
Context `{Runtime}.

(** [Py_XDECREF(p)]: nothing for NULL, else [Py_DECREF]. *)
Definition Py_XDECREF (p : ptr) : M unit :=
  match p with
  | None => mret tt
  | Some a =>
    o ← get_object a;
    set_object a (mkPyObject (ob_refcnt o - 1) (ob_type o) (ob_data o));;
    if ob_refcnt o - 1 =? 0 then _Py_Dealloc a else mret tt
  end.

(** [PyArg_ParseTuple(args, "O!O:tb_set_next", &PyTraceBack_Type, &tb,
    &next)]: two items, the first one a traceback (the traceback type has
    no subtype); otherwise TypeError.  The items are borrowed. *)
Definition PyArg_ParseTuple (args : list nat) : M (option (nat * nat)) :=
  match args with
  | [tb; next] =>
    t ← Py_TYPE tb;
    if PyTraceBack_Check t then mret (Some (tb, next))
    else PyErr_SetString PyExc_TypeError;; mret None
  | _ => PyErr_SetString PyExc_TypeError;; mret None
  end.

(** [tb_set_next] (lines 159-183).  The first step gives the [next] to
    store, or nothing when the function returns NULL at line 172. *)
Definition tb_set_next (args : list nat) : M ptr :=
  parsed ← PyArg_ParseTuple args;
  match parsed with
  | None => mret NULL
  | Some (tb, next) =>
    checked ←
      (if (next =? Py_None)%nat then mret (Some NULL)
       else
         t ← Py_TYPE next;
         if negb (PyTraceBack_Check t) then
           PyErr_SetString PyExc_TypeError;; mret None
         else Py_INCREF next;; mret (Some (Some next)));
    match checked with
    | None => mret NULL
    | Some next =>
      old ← get_tb_next tb;
      set_tb_next tb next;;
      Py_XDECREF old;;
      Py_INCREF Py_None;;
      mret (Some Py_None)
    end
  end.

End TbSetNext.

(** What a state says of an address: its reference count, its type, and
    its [tb_next] field when it is a traceback struct. *)
Definition refcnt (σ : interp) (a : nat) : option Z :=
  ob_refcnt <$> heap σ !! a.

Definition type_of (σ : interp) (a : nat) : option PyTypeObject :=
  ob_type <$> heap σ !! a.

Definition tb_next_of (σ : interp) (a : nat) : option ptr :=
  o ← heap σ !! a;
  match ob_data o with
  | TracebackData tb_next => Some tb_next
  | OtherData => None
  end.

(** The state with [d] added to the reference count of the object at [a],
    and the state with [next] stored in the [tb_next] field of the traceback
    at [a]. *)
Definition adjust (a : nat) (d : Z) (σ : interp) : interp :=
  match heap σ !! a with
  | Some o =>
      mkInterp (<[a := mkPyObject (ob_refcnt o + d) (ob_type o) (ob_data o)]>
                  (heap σ)) (curexc σ)
  | None => σ
  end.

Definition link (a : nat) (next : ptr) (σ : interp) : interp :=
  match heap σ !! a with
  | Some o =>
      mkInterp (<[a := mkPyObject (ob_refcnt o) (ob_type o)
                          (TracebackData next)]> (heap σ)) (curexc σ)
  | None => σ
  end.

(** 1 when [p] is the address [a]. *)
Definition points_to (p : ptr) (a : nat) : Z :=
  if bool_decide (p = Some a) then 1 else 0.

(** The state with [d] added to the reference count of the object that [p]
    points to, if [p] is not NULL. *)
Definition adjust_ptr (p : ptr) (d : Z) (σ : interp) : interp :=
  match p with
  | Some a => adjust a d σ
  | None => σ
  end.

(** A runtime whose deallocator leaves the heap as it is, and a heap with
    [None] at address 0 and tracebacks from address 1 on, each with its
    reference count and [tb_next]. *)
Definition ref_runtime : Runtime := {|
  Py_None := 0%nat;
  _Py_Dealloc := fun _ => mret tt;
|}.

Definition traceback (refs : Z) (next : ptr) : PyObject :=
  mkPyObject refs PyTraceBack_Type (TracebackData next).

Definition ref_heap (objs : list PyObject) : interp :=
  mkInterp (mkPyObject 1 (PyOther_Type "NoneType") OtherData :: objs) None.

(** [None], a traceback without next, a second traceback, and an object
    that is no traceback. *)
Definition two_tracebacks : interp :=
  ref_heap [traceback 1 NULL; traceback 1 NULL;
            mkPyObject 1 (PyOther_Type "int") OtherData].

(** The same with the second traceback linked from the first one, which
    holds its only reference. *)
Definition linked : interp :=
  ref_heap [traceback 1 (Some 2%nat); traceback 1 NULL].

End Traceback.

(** * The tables against the specification *)

Lemma delta_cases c :
  (delta c = 4 ∧ (c = QUOT ∨ c = APOS ∨ c = AMP)) ∨
  (delta c = 3 ∧ (c = LT ∨ c = GT)) ∨
  (delta c = 0 ∧ c ≠ QUOT ∧ c ≠ APOS ∧ c ≠ AMP ∧ c ≠ LT ∧ c ≠ GT).
Proof.
  unfold delta.
  destruct (N.eqb_spec c QUOT), (N.eqb_spec c APOS), (N.eqb_spec c AMP),
    (N.eqb_spec c LT), (N.eqb_spec c GT); simpl; subst;
    try discriminate; intuition auto.
Qed.

Lemma delta_nonneg c : 0 <= delta c <= 4.
Proof. destruct (delta_cases c) as [[-> _]|[[-> _]|[-> _]]]; lia. Qed.

Lemma delta_above_table c :
  (ESCAPED_CHARS_TABLE_SIZE <= c)%N → delta c = 0.
Proof.
  intros Hc. destruct (delta_cases c) as [[_ Hq]|[[_ Hq]|[-> _]]]; [| |done];
    exfalso; revert Hc; unfold ESCAPED_CHARS_TABLE_SIZE;
    destruct_or!; subst c; vm_compute; congruence.
Qed.

Lemma image_length c : Z.of_nat (length (image c)) = delta c + 1.
Proof.
  unfold image, delta.
  destruct (c =? QUOT)%N; [done|]. destruct (c =? APOS)%N; [done|].
  destruct (c =? AMP)%N; [done|]. destruct (c =? LT)%N; [done|].
  by destruct (c =? GT)%N.
Qed.

Lemma image_not_in_table c : in_table c = false → image c = [c].
Proof.
  unfold in_table, image, delta.
  destruct (c =? QUOT)%N; [done|]. destruct (c =? APOS)%N; [done|].
  destruct (c =? AMP)%N; [done|]. destruct (c =? LT)%N; [done|].
  by destruct (c =? GT)%N.
Qed.

(** Every slot of the two tables, by enumeration of the 63 indices. *)
Lemma tables_below n :
  (n < 63)%nat →
  escaped_chars_delta_len !! n = Some (delta (N.of_nat n)) ∧
  escaped_chars_repl !! n =
    Some (if in_table (N.of_nat n) then Some (image (N.of_nat n) ++ [0%N])
          else None).
Proof.
  intros Hn.
  do 63 (destruct n as [|n]; [by vm_compute|]). lia.
Qed.

Lemma tables_length :
  length escaped_chars_delta_len = 63%nat ∧ length escaped_chars_repl = 63%nat.
Proof. by vm_compute. Qed.

Lemma delta_len_at_below c :
  (c < ESCAPED_CHARS_TABLE_SIZE)%N → delta_len_at c = Done (delta c).
Proof.
  intros Hc. unfold delta_len_at, idx.
  destruct (tables_below (N.to_nat c)) as [-> _].
  - unfold ESCAPED_CHARS_TABLE_SIZE in Hc. lia.
  - by rewrite N2Nat.id.
Qed.

Lemma delta_len_at_above c :
  (ESCAPED_CHARS_TABLE_SIZE <= c)%N → delta_len_at c = Fault OutOfBounds.
Proof.
  intros Hc. unfold delta_len_at, idx.
  rewrite (lookup_ge_None_2 escaped_chars_delta_len); [done|].
  destruct tables_length as [-> _]. unfold ESCAPED_CHARS_TABLE_SIZE in Hc. lia.
Qed.

Lemma repl_at_in_table c :
  in_table c = true → repl_at c = Done (Some (image c ++ [0%N])).
Proof.
  intros Hc. unfold repl_at, idx.
  assert (c < ESCAPED_CHARS_TABLE_SIZE)%N as Hlt.
  { destruct (N.ltb_spec c ESCAPED_CHARS_TABLE_SIZE) as [|Hge]; [done|].
    apply delta_above_table in Hge. unfold in_table in Hc.
    rewrite Hge in Hc. done. }
  destruct (tables_below (N.to_nat c)) as [_ ->].
  - unfold ESCAPED_CHARS_TABLE_SIZE in Hlt. lia.
  - by rewrite N2Nat.id, Hc.
Qed.

(** * The two passes against the specification *)

Lemma total_delta_cons c s : total_delta (c :: s) = delta c + total_delta s.
Proof. done. Qed.

Lemma total_delta_app s t : total_delta (s ++ t) = total_delta s + total_delta t.
Proof. induction s as [|c s IH]; simpl; [done|]. rewrite IH. lia. Qed.

Lemma match_count_cons c s :
  match_count (c :: s) = (if in_table c then 1 else 0) + match_count s.
Proof.
  unfold match_count. rewrite filter_cons.
  destruct (decide (in_table c = true)) as [->|Hn]; simpl.
  - lia.
  - destruct (in_table c); [done|]. lia.
Qed.

Lemma match_count_app s t : match_count (s ++ t) = match_count s + match_count t.
Proof. unfold match_count. rewrite filter_app, length_app. lia. Qed.

Lemma total_delta_nonneg s : 0 <= total_delta s.
Proof.
  induction s as [|c s IH]; simpl; [done|]. pose proof (delta_nonneg c). lia.
Qed.

Lemma match_count_nonneg s : 0 <= match_count s.
Proof. unfold match_count. lia. Qed.

Lemma match_count_le_length s : match_count s <= Z.of_nat (length s).
Proof.
  induction s as [|c s IH]; [done|]. rewrite match_count_cons. simpl length.
  destruct (in_table c); lia.
Qed.

Lemma escape_text_length s :
  Z.of_nat (length (escape_text s)) = Z.of_nat (length s) + total_delta s.
Proof.
  induction s as [|c s IH]; [done|].
  unfold escape_text in *. simpl. rewrite length_app, Nat2Z.inj_add, IH.
  rewrite image_length. lia.
Qed.

Lemma clean_match_count s : clean s ↔ match_count s = 0.
Proof.
  induction s as [|c s IH]; [by split; [|constructor]|].
  rewrite match_count_cons. pose proof (match_count_nonneg s). split.
  - intros Hc. apply Forall_cons in Hc as [-> Hs]. apply IH in Hs. lia.
  - intros Hz. destruct (in_table c) eqn:Hc; [lia|].
    constructor; [done|]. apply IH. lia.
Qed.

Lemma clean_total_delta s : clean s → total_delta s = 0.
Proof.
  induction 1 as [|c s Hc _ IH]; [done|]. rewrite total_delta_cons, IH.
  unfold in_table in Hc. apply negb_false_iff, Z.eqb_eq in Hc. lia.
Qed.

Lemma clean_escape_text s : clean s → escape_text s = s.
Proof.
  induction 1 as [|c s Hc _ IH]; [done|]. unfold escape_text in *. simpl.
  by rewrite IH, image_not_in_table.
Qed.

Lemma escape_text_app s t : escape_text (s ++ t) = escape_text s ++ escape_text t.
Proof. apply flat_map_app. Qed.

(** A text with a match splits at its first match. *)
Lemma first_match s :
  0 < match_count s →
  ∃ run m rest, s = run ++ m :: rest ∧ clean run ∧ in_table m = true.
Proof.
  induction s as [|c s IH]; [done|]. rewrite match_count_cons.
  destruct (in_table c) eqn:Hc.
  - intros _. exists [], c, s. repeat split; [constructor|done].
  - intros Hs. destruct IH as (run & m & rest & -> & Hrun & Hm); [lia|].
    exists (c :: run), m, rest. repeat split; [by constructor|done].
Qed.

(** Right-nest every append, so that equal lists become syntactically
    equal. *)
Ltac app_norm :=
  unfold buffer;
  repeat (rewrite <- app_assoc || rewrite <- app_comm_cons || rewrite app_nil_r).

Section Passes.
Context `{Runtime}.

Lemma res_bind_done {A B} (a : A) (k : A → res B) : (Done a ≫= k) = k a.
Proof. done. Qed.

Lemma ssize_add_ok a b :
  0 <= a + b <= PY_SSIZE_T_MAX → ssize_add a b = Done (a + b).
Proof.
  intros Hr. unfold ssize_add. simpl.
  destruct (Z.leb_spec (- PY_SSIZE_T_MAX - 1) (a + b)); [|lia].
  destruct (Z.leb_spec (a + b) PY_SSIZE_T_MAX); [done|lia].
Qed.

Lemma deref_middle pre c rest :
  deref (pre ++ c :: rest) (Z.of_nat (length pre)) = Done c.
Proof.
  unfold deref. destruct (Z.ltb_spec (Z.of_nat (length pre)) 0); [lia|].
  by rewrite Nat2Z.id, list_lookup_middle.
Qed.

(** The first pass computes the total delta and the number of matches, and
    stops at the end pointer. *)
Lemma scan_pass_spec rest : ∀ pre fuel dl er,
  (length rest < fuel)%nat →
  0 <= dl → 0 <= er →
  dl + total_delta rest <= PY_SSIZE_T_MAX →
  er + match_count rest <= PY_SSIZE_T_MAX →
  scan_pass fuel (buffer (pre ++ rest)) (Z.of_nat (length (pre ++ rest)))
    (Z.of_nat (length pre)) dl er
  = Done (dl + total_delta rest, er + match_count rest).
Proof.
  induction rest as [|c rest IH]; intros pre fuel dl er Hfuel Hdl Her Hd He;
    (destruct fuel as [|fuel]; [simpl in Hfuel; lia|]); simpl scan_pass.
  - rewrite app_nil_r. unfold buffer. rewrite deref_middle, res_bind_done.
    rewrite Z.ltb_irrefl. simpl. unfold match_count. simpl.
    by rewrite !Z.add_0_r.
  - unfold buffer. rewrite <- (app_assoc pre), <- app_comm_cons.
    rewrite deref_middle, res_bind_done.
    replace (Z.of_nat (length pre) <? _) with true; cycle 1.
    { symmetry. apply Z.ltb_lt. rewrite !length_app. simpl. lia. }
    rewrite orb_true_r.
    rewrite total_delta_cons in Hd. rewrite match_count_cons in He.
    pose proof (delta_nonneg c) as Hc.
    pose proof (total_delta_nonneg rest) as Hr.
    pose proof (match_count_nonneg rest) as Hm.
    assert (((pre ++ [c]) ++ rest) ++ [0%N] = pre ++ c :: rest ++ [0%N]) as Hbuf.
    { by rewrite <- !app_assoc. }
    assert (Z.of_nat (length (pre ++ [c])) = Z.of_nat (length pre) + 1) as Hlen.
    { rewrite length_app. simpl. lia. }
    assert (length ((pre ++ [c]) ++ rest) = length (pre ++ c :: rest)) as Hlen'.
    { by rewrite <- app_assoc. }
    specialize (IH (pre ++ [c]) fuel). unfold buffer in IH.
    rewrite Hbuf, Hlen, Hlen' in IH.
    rewrite total_delta_cons, match_count_cons.
    destruct (N.ltb_spec c ESCAPED_CHARS_TABLE_SIZE) as [Hlt|Hge].
    + rewrite (delta_len_at_below _ Hlt), !res_bind_done.
      fold (in_table c). destruct (in_table c) eqn:Hin.
      * rewrite (ssize_add_ok dl), res_bind_done by lia.
        rewrite (ssize_add_ok er), res_bind_done by lia.
        rewrite IH by (simpl in Hfuel; lia). f_equal; f_equal; lia.
      * unfold in_table in Hin. apply negb_false_iff, Z.eqb_eq in Hin.
        simpl. rewrite IH by (simpl in Hfuel; lia). f_equal; f_equal; lia.
    + rewrite res_bind_done.
      assert (in_table c = false) as Hin.
      { unfold in_table. by rewrite (delta_above_table _ Hge). }
      rewrite Hin in *. rewrite (delta_above_table _ Hge).
      rewrite IH by (simpl in Hfuel; lia). f_equal; f_equal; lia.
Qed.

Lemma in_table_below c :
  in_table c = true → (c < ESCAPED_CHARS_TABLE_SIZE)%N.
Proof.
  intros Hc. destruct (N.ltb_spec c ESCAPED_CHARS_TABLE_SIZE) as [|Hge]; [done|].
  apply delta_above_table in Hge. unfold in_table in Hc. by rewrite Hge in Hc.
Qed.

(** The inner loop stops at the first match, with its delta plus one. *)
Lemma next_substitution_spec run : ∀ pre m rest fuel dl,
  clean run → in_table m = true → (length run < fuel)%nat →
  delta m + 1 <= PY_SSIZE_T_MAX →
  next_substitution fuel (buffer (pre ++ run ++ m :: rest))
    (Z.of_nat (length (pre ++ run ++ m :: rest))) (Z.of_nat (length pre)) dl
  = Done (Z.of_nat (length (pre ++ run)), delta m + 1).
Proof.
  induction run as [|c run IH]; intros pre m rest fuel dl Hrun Hm Hfuel Hmax;
    (destruct fuel as [|fuel]; [simpl in Hfuel; lia|]); simpl next_substitution;
    pose proof (delta_nonneg m) as Hdm.
  - replace (Z.of_nat (length pre) <? _) with true; cycle 1.
    { symmetry. apply Z.ltb_lt. rewrite !length_app. simpl. lia. }
    unfold buffer. simpl app. rewrite <- app_assoc, <- app_comm_cons.
    rewrite deref_middle, res_bind_done.
    pose proof (in_table_below _ Hm) as Hlt. apply N.ltb_lt in Hlt as ->.
    rewrite delta_len_at_below, res_bind_done by by apply in_table_below.
    fold (in_table m). rewrite Hm.
    rewrite ssize_add_ok, res_bind_done by lia. by rewrite app_nil_r.
  - apply Forall_cons in Hrun as [Hc Hrun].
    replace (Z.of_nat (length pre) <? _) with true; cycle 1.
    { symmetry. apply Z.ltb_lt. rewrite !length_app. simpl. lia. }
    unfold buffer. rewrite <- (app_assoc pre), <- !app_comm_cons.
    rewrite deref_middle, res_bind_done.
    specialize (IH (pre ++ [c]) m rest fuel). unfold buffer in IH.
    rewrite <- !(app_assoc pre [c]) in IH. simpl app in IH.
    replace (Z.of_nat (length (pre ++ [c]))) with (Z.of_nat (length pre) + 1)
      in IH by (rewrite length_app; simpl; lia).
    rewrite <- (app_assoc pre) in IH. simpl in Hfuel.
    destruct (N.ltb_spec c ESCAPED_CHARS_TABLE_SIZE) as [Hlt|Hge].
    + rewrite (delta_len_at_below _ Hlt), res_bind_done.
      fold (in_table c). rewrite Hc. apply IH; [done|done|lia|done].
    + apply IH; [done|done|lia|done].
Qed.

(** [Py_UNICODE_COPY] of a slice [data] of the source onto the cells that
    follow the part [done_] of the target. *)
Lemma Py_UNICODE_COPY_spec done_ junk src_pre data src_post tp sp n :
  tp = Z.of_nat (length done_) →
  sp = Z.of_nat (length src_pre) →
  n = Z.of_nat (length data) →
  (length data <= length junk)%nat →
  Py_UNICODE_COPY (done_ ++ junk) tp (src_pre ++ data ++ src_post) sp n
  = Done (done_ ++ data ++ drop (length data) junk).
Proof.
  intros -> -> -> Hroom. unfold Py_UNICODE_COPY.
  destruct (Z.ltb_spec (Z.of_nat (length data)) 0); [lia|].
  destruct (Z.ltb_spec (Z.of_nat (length done_)) 0); [lia|].
  destruct (Z.ltb_spec (Z.of_nat (length src_pre)) 0); [lia|].
  simpl. rewrite !Nat2Z.id.
  destruct (Nat.leb_spec (length src_pre + length data)
              (length (src_pre ++ data ++ src_post))) as [_|Hbad];
    [|rewrite !length_app in Hbad; lia].
  destruct (Nat.leb_spec (length done_ + length data)
              (length (done_ ++ junk))) as [_|Hbad];
    [|rewrite !length_app in Hbad; lia].
  simpl. f_equal.
  rewrite take_app_length, drop_app_length, take_app_length.
  by rewrite drop_app_add'.
Qed.

Lemma escape_text_run_match run m :
  clean run → escape_text (run ++ [m]) = run ++ image m.
Proof.
  intros Hrun. rewrite escape_text_app, (clean_escape_text run Hrun).
  unfold escape_text. simpl. by rewrite app_nil_r.
Qed.

(** The outer loop: after as many rounds as the text [rest] has matches,
    everything up to and including the last match ([head]) is written, and
    the unwritten [tail] has no match. *)
Lemma copy_pass_spec (n : nat) : ∀ rest pre junk fuel dl,
  match_count rest = Z.of_nat n →
  (n < fuel)%nat →
  (length (escape_text rest) < length junk)%nat →
  Z.of_nat (length (pre ++ rest)) + total_delta (pre ++ rest)
    <= PY_SSIZE_T_MAX →
  ∃ head tail,
    rest = head ++ tail ∧ clean tail ∧
    copy_pass fuel (buffer (pre ++ rest)) (Z.of_nat (length (pre ++ rest)))
      (Z.of_nat n) (Z.of_nat (length pre)) (escape_text pre ++ junk)
      (Z.of_nat (length (escape_text pre))) dl
    = Done (Z.of_nat (length (pre ++ head)),
            escape_text (pre ++ head) ++ drop (length (escape_text head)) junk,
            Z.of_nat (length (escape_text (pre ++ head)))).
Proof.
  induction n as [|n IH]; intros rest pre junk fuel dl Hn Hfuel Hroom Hmax;
    (destruct fuel as [|fuel]; [lia|]).
  - exists [], rest. split; [done|]. split; [by apply clean_match_count|].
    simpl. by rewrite app_nil_r.
  - destruct (first_match rest) as (run & m & rest' & -> & Hrun & Hm); [lia|].
    rewrite match_count_app, match_count_cons, Hm in Hn.
    apply clean_match_count in Hrun as Hrun0. rewrite Hrun0 in Hn.
    rewrite !escape_text_app, (clean_escape_text run Hrun) in Hroom.
    change (escape_text (m :: rest')) with (image m ++ escape_text rest') in Hroom.
    rewrite !length_app in Hroom.
    pose proof (image_length m) as Him. pose proof (delta_nonneg m) as Hdm.
    assert (delta m + 1 <= PY_SSIZE_T_MAX) as Hm1.
    { revert Hmax. rewrite !total_delta_app, total_delta_cons, !length_app.
      simpl length. pose proof (total_delta_nonneg pre).
      pose proof (total_delta_nonneg run). pose proof (total_delta_nonneg rest').
      lia. }
    destruct (IH rest' (pre ++ run ++ [m])
                (drop (length (image m)) (drop (length run) junk)) fuel
                (delta m + 1))
      as (head & tail & -> & Htail & IHeq).
    { lia. } { lia. }
    { rewrite !length_drop. lia. }
    { by rewrite <- !app_assoc. }
    exists (run ++ m :: head), tail. split; [by rewrite <- app_assoc|].
    split; [done|].
    replace (Z.of_nat (S n)) with (Z.of_nat n + 1) by lia.
    simpl copy_pass.
    replace (Z.of_nat n + 1 >? 0) with true by (symmetry; apply Z.gtb_lt; lia).
    rewrite next_substitution_spec, res_bind_done; [|done|done| |done]; cycle 1.
    { unfold buffer. rewrite !length_app. simpl. lia. }
    (* the run of unmatched code units *)
    assert ((if Z.of_nat (length (pre ++ run)) >? Z.of_nat (length pre)
             then out ← Py_UNICODE_COPY (escape_text pre ++ junk)
                        (Z.of_nat (length (escape_text pre)))
                        (buffer (pre ++ run ++ m :: head ++ tail))
                        (Z.of_nat (length pre))
                        (Z.of_nat (length (pre ++ run)) - Z.of_nat (length pre));
                  mret (out, Z.of_nat (length (escape_text pre)) +
                         (Z.of_nat (length (pre ++ run)) - Z.of_nat (length pre)))
             else mret (escape_text pre ++ junk,
                        Z.of_nat (length (escape_text pre))))
            = Done ((escape_text pre ++ run) ++ drop (length run) junk,
                    Z.of_nat (length (escape_text pre ++ run)))) as ->.
    { destruct (Z.gtb_spec (Z.of_nat (length (pre ++ run)))
                  (Z.of_nat (length pre))) as [Hgt|Hle].
      - unfold buffer. rewrite <- !(app_assoc pre), <- (app_assoc run).
        rewrite (Py_UNICODE_COPY_spec (escape_text pre) junk pre run);
          [|done|done|rewrite length_app; lia|lia].
        rewrite res_bind_done, <- app_assoc. unfold mret, res_ret.
        f_equal. f_equal. rewrite !length_app. lia.
      - rewrite length_app in Hle. destruct run; [|simpl in Hle; lia].
        by rewrite !app_nil_r. }
    rewrite res_bind_done.
    (* the replacement of the match *)
    replace (buffer (pre ++ run ++ m :: head ++ tail))
      with ((pre ++ run) ++ m :: (head ++ tail) ++ [0%N])
      by (by app_norm).
    rewrite deref_middle, res_bind_done.
    rewrite (repl_at_in_table _ Hm), res_bind_done. simpl of_option.
    rewrite res_bind_done.
    rewrite (Py_UNICODE_COPY_spec (escape_text pre ++ run)
               (drop (length run) junk) [] (image m) [0%N]);
      [|done|done|lia|rewrite length_drop; lia].
    rewrite res_bind_done.
    (* the remaining rounds *)
    replace ((pre ++ run) ++ m :: (head ++ tail) ++ [0%N])
      with (buffer ((pre ++ run ++ [m]) ++ head ++ tail))
      by (by app_norm).
    replace (length (pre ++ run ++ m :: head ++ tail))
      with (length ((pre ++ run ++ [m]) ++ head ++ tail))
      by (by app_norm).
    replace (Z.of_nat n + 1 - 1) with (Z.of_nat n) by lia.
    replace (Z.of_nat (length (pre ++ run)) + 1)
      with (Z.of_nat (length (pre ++ run ++ [m])))
      by (rewrite !length_app; simpl; lia).
    replace ((escape_text pre ++ run) ++ image m ++
               drop (length (image m)) (drop (length run) junk))
      with (escape_text (pre ++ run ++ [m]) ++
               drop (length (image m)) (drop (length run) junk))
      by (by rewrite escape_text_app, escape_text_run_match, <- !app_assoc).
    replace (Z.of_nat (length (escape_text pre ++ run)) + (delta m + 1))
      with (Z.of_nat (length (escape_text (pre ++ run ++ [m]))))
      by (rewrite escape_text_app, escape_text_run_match, !length_app by done; lia).
    rewrite IHeq. f_equal. f_equal; [f_equal|].
    + by app_norm.
    + app_norm. f_equal.
      rewrite !drop_drop. f_equal.
      rewrite (escape_text_app run), (clean_escape_text run Hrun).
      change (escape_text (m :: head)) with (image m ++ escape_text head).
      rewrite !length_app. lia.
    + by app_norm.
Qed.

End Passes.

(** * [escape_unicode] on the heap *)

Section Heap.
Context `{Runtime}.

Lemma M_bind_done {A B} (m : M A) (k : A → M B) σ a σ' :
  m σ = Done (a, σ') → (m ≫= k) σ = k a σ'.
Proof. intros E. unfold mbind, M_bind. by rewrite E. Qed.

Lemma M_bind_fault {A B} (m : M A) (k : A → M B) σ f :
  m σ = Fault f → (m ≫= k) σ = Fault f.
Proof. intros E. unfold mbind, M_bind. by rewrite E. Qed.

Lemma lift_done {A} (r : res A) a σ : r = Done a → lift r σ = Done (a, σ).
Proof. by intros ->. Qed.

Lemma get_object_done σ a o :
  heap σ !! a = Some o → get_object a σ = Done (o, σ).
Proof. intros E. unfold get_object. by rewrite E. Qed.

Lemma unicode_fields_done σ a o n str :
  heap σ !! a = Some o → ob_data o = UnicodeData n str →
  unicode_fields a σ = Done ((n, str), σ).
Proof.
  intros Ho Hd. unfold unicode_fields.
  rewrite (M_bind_done _ _ _ _ _ (get_object_done _ _ _ Ho)). by rewrite Hd.
Qed.

Lemma Py_TYPE_done σ a o :
  heap σ !! a = Some o → Py_TYPE a σ = Done (ob_type o, σ).
Proof.
  intros Ho. unfold Py_TYPE.
  by rewrite (M_bind_done _ _ _ _ _ (get_object_done _ _ _ Ho)).
Qed.

Lemma Py_INCREF_done σ a o :
  heap σ !! a = Some o → Py_INCREF a σ = Done (tt, incref a σ).
Proof.
  intros Ho. unfold Py_INCREF, incref.
  rewrite (M_bind_done _ _ _ _ _ (get_object_done _ _ _ Ho)). by rewrite Ho.
Qed.

Lemma scan_pass_whole s :
  Z.of_nat (length s) + total_delta s <= PY_SSIZE_T_MAX →
  scan_pass (S (length (buffer s))) (buffer s) (0 + Z.of_nat (length s)) 0 0 0
  = Done (total_delta s, match_count s).
Proof.
  intros Hmax. pose proof (total_delta_nonneg s).
  pose proof (match_count_le_length s).
  apply (scan_pass_spec s [] (S (length (buffer s))) 0 0); try lia.
  unfold buffer. rewrite length_app. lia.
Qed.

(** The fast path: a text without matches is returned as it is, with one
    more reference; nothing else changes. *)
Lemma escape_unicode_clean σ in_ s :
  unicode_at σ in_ s → clean s →
  escape_unicode in_ σ = Done (Some in_, incref in_ σ).
Proof.
  intros (o & Ho & Hd & Hlen) Hs. unfold escape_unicode.
  rewrite (M_bind_done _ _ _ _ _ (unicode_fields_done _ _ _ _ _ Ho Hd)).
  rewrite (M_bind_done _ _ _ (total_delta s, match_count s) σ); cycle 1.
  { apply lift_done, scan_pass_whole. rewrite (clean_total_delta s Hs). lia. }
  apply clean_match_count in Hs as ->. simpl.
  by rewrite (M_bind_done _ _ _ _ _ (Py_INCREF_done _ _ _ Ho)).
Qed.

(** What [PyUnicode_FromUnicode(NULL, n)] leaves after the [n] first cells. *)
Lemma fresh_buffer_terminator (n : nat) :
  drop n (<[0%nat := 0%N]> (<[n := 0%N]> (map uninit (seq 0 (S n))))) = [0%N].
Proof.
  set (l := map uninit (seq 0 (S n))).
  assert (length l = S n) as Hl by (unfold l; by rewrite length_map, length_seq).
  assert (<[0%nat := 0%N]> (<[n := 0%N]> l) !! n = Some 0%N) as Hn.
  { destruct n as [|n].
    - apply list_lookup_insert_eq. rewrite length_insert. lia.
    - rewrite list_lookup_insert_ne by done.
      apply list_lookup_insert_eq. lia. }
  rewrite (drop_S _ _ _ Hn). f_equal.
  apply drop_ge. rewrite !length_insert. lia.
Qed.

(** The slow path: a text with a match is copied into a new object of
    exactly the escaped length, unless the allocation fails. *)
Lemma escape_unicode_dirty σ in_ s :
  unicode_at σ in_ s → ¬ clean s →
  Z.of_nat (length (escape_text s)) <= PY_SSIZE_T_MAX →
  escape_unicode in_ σ =
    if alloc_ok σ (Z.of_nat (length (escape_text s)))
    then Done (Some (length (heap σ)), with_new_unicode (escape_text s) σ)
    else Done (NULL, with_MemoryError σ).
Proof.
  intros (o & Ho & Hd & Hlen) Hs Hmax. unfold escape_unicode.
  rewrite escape_text_length in *.
  rewrite (M_bind_done _ _ _ _ _ (unicode_fields_done _ _ _ _ _ Ho Hd)).
  rewrite (M_bind_done _ _ _ (total_delta s, match_count s) σ)
    by by apply lift_done, scan_pass_whole.
  pose proof (match_count_nonneg s) as Hm0.
  pose proof (match_count_le_length s) as Hm1.
  pose proof (total_delta_nonneg s) as Hd0.
  assert (match_count s ≠ 0) as Hm by (by intros ?%clean_match_count).
  apply Z.eqb_neq in Hm as Hm'. rewrite Hm'. clear Hm'.
  rewrite (M_bind_done _ _ _ (Z.of_nat (length s) + total_delta s) σ)
    by (apply lift_done, ssize_add_ok; lia).
  set (size := Z.of_nat (length s) + total_delta s).
  unfold PyUnicode_FromUnicode_NULL at 1. unfold mbind at 1, M_bind at 1.
  destruct (Z.ltb_spec size 0) as [Hneg|_]; [unfold size in Hneg; lia|].
  destruct (alloc_ok σ size); [|done].
  set (n := Z.to_nat size).
  set (ostr := <[0%nat := 0%N]> (<[n := 0%N]> (map uninit (seq 0 (S n))))).
  set (σ1 := mkInterp _ _).
  assert (length ostr = S n) as Hostr.
  { unfold ostr. by rewrite !length_insert, length_map, length_seq. }
  assert (Z.of_nat (length (escape_text s)) = size) as Hsize
    by apply escape_text_length.
  assert (length (escape_text s) = n) as Hn by (unfold n; lia).
  rewrite (M_bind_done _ _ _ (size, ostr) σ1); cycle 1.
  { eapply unicode_fields_done;
      [unfold σ1; simpl; by rewrite lookup_app_r, Nat.sub_diag by done|done]. }
  (* the rounds of the copy pass *)
  destruct (copy_pass_spec (Z.to_nat (match_count s)) s [] ostr
              (S (length (buffer s))) 0)
    as (head & tail & Hsplit & Htail & Hcopy).
  { lia. }
  { unfold buffer. rewrite length_app. simpl. lia. }
  { lia. }
  { simpl. fold size. lia. }
  change (escape_text []) with (@nil N) in Hcopy.
  cbn [app length Z.of_nat] in Hcopy.
  rewrite Z2Nat.id in Hcopy by lia.
  change (0 + Z.of_nat (length s)) with (Z.of_nat (length s)).
  erewrite M_bind_done; [|by apply lift_done, Hcopy].
  cbn beta iota. rewrite Z.sub_0_r.
  (* the trailing run *)
  assert (escape_text s = escape_text head ++ tail) as Hout.
  { by rewrite Hsplit, escape_text_app, (clean_escape_text tail). }
  assert (length s = (length head + length tail)%nat) as Hlens.
  { by rewrite Hsplit, length_app. }
  assert (drop (length (escape_text head) + length tail) ostr = [0%N]) as Hend.
  { rewrite <- length_app, <- Hout, Hn. apply fresh_buffer_terminator. }
  erewrite (M_bind_done _ _ _ (buffer (escape_text s))); cycle 1.
  { destruct (Z.ltb_spec (Z.of_nat (length head)) (Z.of_nat (length s)))
      as [Hlt|Hge].
    - apply lift_done. rewrite Hsplit at 1. unfold buffer at 1.
      rewrite <- app_assoc.
      rewrite (Py_UNICODE_COPY_spec (escape_text head) _ head tail [0%N]);
        [|done|done|lia|].
      + f_equal. rewrite drop_drop, Hend, Hout. by app_norm.
      + rewrite length_drop, Hostr, <- Hn, Hout, length_app. lia.
    - assert (tail = []) as Hnil by (destruct tail; [done|simpl in Hlens; lia]).
      rewrite Hnil, Nat.add_0_r in Hend. rewrite Hnil, app_nil_r in Hout.
      rewrite Hend, <- Hout. done. }
  (* the buffer is the new object's *)
  unfold set_str.
  erewrite M_bind_done; cycle 1.
  { erewrite M_bind_done; cycle 1.
    { apply get_object_done. unfold σ1. simpl.
      by rewrite lookup_app_r, Nat.sub_diag by done. }
    simpl. unfold set_object. reflexivity. }
  unfold mret, M_ret, with_new_unicode, σ1. simpl. f_equal. f_equal.
  rewrite <- (Nat.add_0_r (length (heap σ))) at 1.
  rewrite insert_app_r. simpl. by rewrite Hsize.
Qed.

End Heap.

(** * Properties of the escaped text *)

Lemma image_in_table c :
  in_table c = true →
  ∃ tail, image c = AMP :: tail ∧ (image c ∈ replacements) ∧
          (AMP ∉ tail) ∧ (QUOT ∉ tail) ∧ (APOS ∉ tail) ∧ (LT ∉ tail) ∧
          (GT ∉ tail).
Proof.
  intros Hc. unfold in_table in Hc.
  destruct (delta_cases c) as [[_ Hq]|[[_ Hq]|[Hz _]]];
    [| |by rewrite Hz in Hc];
    destruct_or!; subst c; eexists; (split; [reflexivity|]);
    (split; [unfold replacements; eauto 6 using list_elem_of_here, list_elem_of_further|]);
    repeat split; intros Hin; repeat (apply elem_of_cons in Hin as [?|Hin]);
    try discriminate; by apply elem_of_nil in Hin.
Qed.

Lemma not_in_table_not_special c :
  in_table c = false →
  c ≠ QUOT ∧ c ≠ APOS ∧ c ≠ AMP ∧ c ≠ LT ∧ c ≠ GT.
Proof.
  intros Hc. unfold in_table in Hc.
  destruct (delta_cases c) as [[Hd _]|[[Hd _]|[_ Hne]]]; [| |done];
    by rewrite Hd in Hc.
Qed.

Lemma escape_text_fully_escaped s : fully_escaped (escape_text s).
Proof.
  induction s as [|c s (Hq & Ha & Hl & Hg & Hamp)].
  { unfold fully_escaped, escape_text. simpl.
    repeat split; try apply not_elem_of_nil. intros i Hi.
    by rewrite lookup_nil in Hi. }
  change (escape_text (c :: s)) with (image c ++ escape_text s).
  destruct (in_table c) eqn:Hc.
  - destruct (image_in_table c Hc)
      as (tail & Him & Hrepl & Ha' & Hq' & Hp' & Hl' & Hg').
    rewrite Him in *. repeat split.
    1-4: rewrite <- app_comm_cons; intros Hin;
      apply elem_of_cons in Hin as [?|Hin%elem_of_app]; [discriminate|];
      destruct Hin; done.
    intros [|i] Hi.
    + exists (AMP :: tail). split; [done|]. by eexists.
    + rewrite <- app_comm_cons in Hi |- *. simpl in Hi. simpl drop.
      destruct (decide (i < length tail)%nat) as [Hlt|Hge].
      * rewrite lookup_app_l in Hi by done.
        apply list_elem_of_lookup_2 in Hi. done.
      * rewrite lookup_app_r in Hi by lia.
        destruct (Hamp _ Hi) as (r & Hr & Hpre). exists r. split; [done|].
        by rewrite drop_app_ge by lia.
  - rewrite (image_not_in_table c Hc).
    destruct (not_in_table_not_special c Hc) as (? & ? & ? & ? & ?).
    repeat split.
    1-4: intros Hin; apply elem_of_cons in Hin as [?|Hin]; done.
    intros [|i] Hi; simpl in Hi; [congruence|]. simpl. by apply Hamp.
Qed.

(** * [escape_unicode] against the specification *)

Section EscapeUnicode.
Context `{Runtime}.

Lemma unicode_at_incref σ a b s :
  unicode_at σ a s → unicode_at (incref b σ) a s.
Proof.
  intros (o & Ho & Hd & Hlen). unfold incref.
  destruct (heap σ !! b) as [ob|] eqn:Hb; [|by exists o].
  destruct (decide (a = b)) as [->|Hne].
  - eexists. simpl. rewrite list_lookup_insert_eq by by eapply lookup_lt_Some.
    split; [done|]. simpl. rewrite Ho in Hb. by injection Hb as <-.
  - exists o. simpl. by rewrite list_lookup_insert_ne.
Qed.

Lemma unicode_at_new σ t :
  Z.of_nat (length t) <= PY_SSIZE_T_MAX →
  unicode_at (with_new_unicode t σ) (length (heap σ)) t.
Proof.
  intros Hlen. eexists. unfold with_new_unicode. simpl.
  by rewrite lookup_app_r, Nat.sub_diag by done.
Qed.

Lemma clean_dec s : {clean s} + {¬ clean s}.
Proof. apply Forall_dec. intros c. by destruct (in_table c); [right|left]. Qed.

(** Whatever the text, when the output can be allocated [escape_unicode]
    returns an object that holds the escaped text. *)
Lemma escape_unicode_spec σ in_ s :
  unicode_at σ in_ s → output_allocatable σ s →
  ∃ out σ',
    escape_unicode in_ σ = Done (Some out, σ') ∧
    unicode_at σ' out (escape_text s).
Proof.
  intros Hin Halloc. destruct (clean_dec s) as [Hs|Hs].
  - exists in_, (incref in_ σ). split; [by eapply escape_unicode_clean|].
    rewrite (clean_escape_text s Hs). by apply unicode_at_incref.
  - destruct Halloc as [?|[Hfit Hok]]; [done|].
    exists (length (heap σ)), (with_new_unicode (escape_text s) σ).
    split; [|by apply unicode_at_new].
    by rewrite (escape_unicode_dirty σ in_ s), Hok.
Qed.

End EscapeUnicode.

(** * The escaper: functional correctness, sizes, bounds *)

Section EscaperClaims.
Context `{Runtime}.

Lemma repl_at_above c :
  (ESCAPED_CHARS_TABLE_SIZE <= c)%N → repl_at c = Fault OutOfBounds.
Proof.
  intros Hc. unfold repl_at, idx.
  rewrite (lookup_ge_None_2 escaped_chars_repl); [done|].
  destruct tables_length as [_ ->]. unfold ESCAPED_CHARS_TABLE_SIZE in Hc. lia.
Qed.

Lemma allocatable_fits σ in_ s :
  unicode_at σ in_ s → output_allocatable σ s →
  Z.of_nat (length s) + total_delta s <= PY_SSIZE_T_MAX.
Proof.
  intros (o & _ & _ & Hlen) [Hs|[Hfit _]].
  - rewrite (clean_total_delta s Hs). lia.
  - by rewrite <- escape_text_length.
Qed.

Lemma image_other c :
  c ∉ [QUOT; APOS; AMP; LT; GT] → image c = [c].
Proof.
  intros Hc. apply image_not_in_table. unfold in_table.
  destruct (delta_cases c) as [[_ Hq]|[[_ Hq]|[-> _]]]; [| |done];
    exfalso; apply Hc; destruct_or!; subst c;
    eauto 6 using list_elem_of_here, list_elem_of_further.
Qed.

(** C1: for every text, [escape_unicode] returns the concatenation, in input
    order, of the images of its code units, where the image of the double
    quote is [&#34;], of the single quote [&#39;], of the ampersand [&amp;],
    of the less-than sign [&lt;], of the greater-than sign [&gt;], and every
    other code unit is its own image. *)
Theorem escape_unicode_concat_images σ in_ s :
  unicode_at σ in_ s → output_allocatable σ s →
  (∃ out σ',
     escape_unicode in_ σ = Done (Some out, σ') ∧
     unicode_at σ' out (concat (map image s))) ∧
  image QUOT = text "&#34;" ∧ image APOS = text "&#39;" ∧
  image AMP = text "&amp;" ∧ image LT = text "&lt;" ∧ image GT = text "&gt;" ∧
  (∀ c, c ∉ [QUOT; APOS; AMP; LT; GT] → image c = [c]).
Proof.
  intros Hin Halloc. split; [|repeat split; try done; apply image_other].
  rewrite <- flat_map_concat_map. by apply escape_unicode_spec.
Qed.

(** The allocation of [size] code units followed by the filling of the
    buffer with the text [t]. *)
Lemma allocate_then_fill σ t :
  0 <= Z.of_nat (length t) →
  (out ← PyUnicode_FromUnicode_NULL (Z.of_nat (length t));
   match out with
   | None => mret NULL
   | Some out => set_str out (buffer t);; mret (Some out)
   end) σ
  = if alloc_ok σ (Z.of_nat (length t))
    then Done (Some (length (heap σ)), with_new_unicode t σ)
    else Done (NULL, with_MemoryError σ).
Proof.
  intros Hlen. unfold PyUnicode_FromUnicode_NULL at 1.
  unfold mbind at 1, M_bind at 1.
  destruct (Z.ltb_spec (Z.of_nat (length t)) 0); [lia|].
  destruct (alloc_ok σ (Z.of_nat (length t))); [|done].
  unfold set_str. erewrite M_bind_done; cycle 1.
  { erewrite M_bind_done; cycle 1.
    { apply get_object_done. simpl.
      by rewrite lookup_app_r, Nat.sub_diag by done. }
    simpl. unfold set_object. reflexivity. }
  unfold mret, M_ret, with_new_unicode. simpl. f_equal. f_equal.
  rewrite <- (Nat.add_0_r (length (heap σ))) at 1.
  by rewrite insert_app_r.
Qed.

(** C2: the escaped text is as long as the input plus the sum of the deltas
    of its code units, the delta being 4 for the two quotes and the
    ampersand, 3 for the two angle brackets and 0 otherwise; the first pass
    computes that sum, and the output object is allocated with exactly this
    size, then filled. *)
Theorem escape_unicode_length_and_allocation σ in_ s :
  unicode_at σ in_ s →
  Z.of_nat (length s) + total_delta s <= PY_SSIZE_T_MAX →
  (∀ c, delta c = if bool_decide (c ∈ [QUOT; APOS; AMP]) then 4
                  else if bool_decide (c ∈ [LT; GT]) then 3 else 0) ∧
  scan_pass (S (length (buffer s))) (buffer s) (Z.of_nat (length s)) 0 0 0
    = Done (total_delta s, match_count s) ∧
  (¬ clean s →
   escape_unicode in_ σ =
     (out ← PyUnicode_FromUnicode_NULL (Z.of_nat (length s) + total_delta s);
      match out with
      | None => mret NULL
      | Some out => set_str out (buffer (escape_text s));; mret (Some out)
      end) σ) ∧
  (∀ out σ', escape_unicode in_ σ = Done (Some out, σ') →
     ∃ t, unicode_at σ' out t ∧
          Z.of_nat (length t) = Z.of_nat (length s) + total_delta s).
Proof.
  intros Hin Hfit. split; [|split; [|split]].
  - intros c. destruct (delta_cases c) as [[-> Hq]|[[-> Hq]|[-> Hne]]].
    + rewrite bool_decide_eq_true_2; [done|].
      destruct_or!; subst c;
        eauto 6 using list_elem_of_here, list_elem_of_further.
    + rewrite bool_decide_eq_false_2, bool_decide_eq_true_2; [done| |].
      * destruct_or!; subst c;
          eauto 6 using list_elem_of_here, list_elem_of_further.
      * intros Hin'. repeat (apply elem_of_cons in Hin' as [?|Hin']);
          [destruct_or!; subst c; discriminate..|by apply elem_of_nil in Hin'].
    + destruct Hne as (? & ? & ? & ? & ?).
      rewrite !bool_decide_eq_false_2; [done|..]; intros Hin';
        repeat (apply elem_of_cons in Hin' as [?|Hin']); try done;
        by apply elem_of_nil in Hin'.
  - by apply scan_pass_whole.
  - intros Hs. rewrite <- escape_text_length.
    rewrite allocate_then_fill by lia.
    apply escape_unicode_dirty; [done|done|]. by rewrite escape_text_length.
  - intros out σ' Hrun. destruct (clean_dec s) as [Hs|Hs].
    + rewrite (escape_unicode_clean σ in_ s Hin Hs) in Hrun.
      injection Hrun as <- <-. exists s. split; [by apply unicode_at_incref|].
      rewrite (clean_total_delta s Hs). lia.
    + rewrite (escape_unicode_dirty σ in_ s Hin Hs) in Hrun
        by by rewrite escape_text_length.
      destruct (alloc_ok σ _); [|done]. injection Hrun as <- <-.
      exists (escape_text s). split; [|apply escape_text_length].
      apply unicode_at_new. by rewrite escape_text_length.
Qed.

(** C4: a code unit at or above the table size is outside both tables, so
    that a table read for it would fault; [escape_unicode] reads no table
    for it, in the first pass or in the second: on every text it completes
    without fault, whether the allocation succeeds or not, and in the output
    such a code unit is copied as it is. *)
Theorem table_lookup_guarded σ in_ s :
  unicode_at σ in_ s →
  Z.of_nat (length (escape_text s)) <= PY_SSIZE_T_MAX →
  (∀ c, (ESCAPED_CHARS_TABLE_SIZE <= c)%N →
        delta_len_at c = Fault OutOfBounds ∧
        repl_at c = Fault OutOfBounds ∧
        image c = [c]) ∧
  (∃ r, scan_pass (S (length (buffer s))) (buffer s) (Z.of_nat (length s))
          0 0 0 = Done r) ∧
  (∃ r σ', escape_unicode in_ σ = Done (r, σ')) ∧
  (output_allocatable σ s →
   ∃ out σ',
     escape_unicode in_ σ = Done (Some out, σ') ∧
     unicode_at σ' out (flat_map image s)).
Proof.
  intros Hin Hfit. split; [|split; [|split]].
  - intros c Hc. split; [by apply delta_len_at_above|].
    split; [by apply repl_at_above|].
    apply image_not_in_table. unfold in_table.
    by rewrite (delta_above_table c Hc).
  - eexists. apply scan_pass_whole. by rewrite <- escape_text_length.
  - destruct (clean_dec s) as [Hs|Hs].
    + eexists _, _. by eapply escape_unicode_clean.
    + rewrite (escape_unicode_dirty σ in_ s Hin Hs Hfit).
      destruct (alloc_ok σ _); by eexists _, _.
  - by apply escape_unicode_spec.
Qed.

(** C5: a text with none of the five characters has no match after the
    first pass, and [escape_unicode] returns the input object itself with
    one more reference: same text, no object allocated, whatever the
    allocator would have answered. *)
Theorem clean_input_is_shared σ in_ s :
  unicode_at σ in_ s →
  (∀ c, c ∈ s → c ∉ [QUOT; APOS; AMP; LT; GT]) →
  match_count s = 0 ∧
  escape_unicode in_ σ = Done (Some in_, incref in_ σ) ∧
  unicode_at (incref in_ σ) in_ s ∧
  length (heap (incref in_ σ)) = length (heap σ) ∧
  escape_text s = s.
Proof.
  intros Hin Hs.
  assert (clean s) as Hclean.
  { apply Forall_forall. intros c Hc.
    destruct (in_table c) eqn:Htab; [|done]. exfalso. apply (Hs c Hc).
    unfold in_table in Htab.
    destruct (delta_cases c) as [[_ Hq]|[[_ Hq]|[Hz _]]];
      [| |by rewrite Hz in Htab];
      destruct_or!; subst c;
      eauto 6 using list_elem_of_here, list_elem_of_further. }
  split; [by apply clean_match_count|].
  split; [by eapply escape_unicode_clean|].
  split; [by apply unicode_at_incref|].
  split; [|by apply clean_escape_text].
  unfold incref. destruct (heap σ !! in_); [|done]. simpl.
  by rewrite length_insert.
Qed.

(** C7: on every unicode object whose escaped length is a [Py_ssize_t],
    [escape_unicode] terminates without fault; it returns an object, except
    when the allocation fails, where it returns NULL with MemoryError; the
    empty text takes the fast path and is returned as it is, without
    allocation. *)
Theorem escape_unicode_total σ in_ s :
  unicode_at σ in_ s →
  Z.of_nat (length (escape_text s)) <= PY_SSIZE_T_MAX →
  (∃ r σ',
     escape_unicode in_ σ = Done (r, σ') ∧
     (r = NULL ↔
      ¬ clean s ∧ alloc_ok σ (Z.of_nat (length (escape_text s))) = false) ∧
     (r = NULL → σ' = with_MemoryError σ)) ∧
  (s = [] → escape_unicode in_ σ = Done (Some in_, incref in_ σ) ∧
            escape_text s = []).
Proof.
  intros Hin Hfit. split.
  - destruct (clean_dec s) as [Hs|Hs].
    + eexists _, _. split; [by eapply escape_unicode_clean|].
      split; [|done]. split; [done|]. by intros [? _].
    + rewrite (escape_unicode_dirty σ in_ s Hin Hs Hfit).
      destruct (alloc_ok σ _); eexists _, _; (split; [reflexivity|]).
      * split; [|done]. split; [done|]. by intros [_ ?].
      * done.
  - intros ->. split; [|done]. eapply escape_unicode_clean; [done|constructor].
Qed.

(** C10: a text with an embedded 0 code unit is processed to its end: the
    first pass counts the matches on both sides of the 0, and the output is
    the escaped text before the 0, the 0 itself, and the escaped text after
    it. *)
Theorem embedded_nul_processed σ in_ pre post :
  unicode_at σ in_ (pre ++ 0%N :: post) →
  output_allocatable σ (pre ++ 0%N :: post) →
  scan_pass (S (length (buffer (pre ++ 0%N :: post))))
    (buffer (pre ++ 0%N :: post))
    (Z.of_nat (length (pre ++ 0%N :: post))) 0 0 0
    = Done (total_delta pre + total_delta post,
            match_count pre + match_count post) ∧
  ∃ out σ',
    escape_unicode in_ σ = Done (Some out, σ') ∧
    unicode_at σ' out (escape_text pre ++ 0%N :: escape_text post).
Proof.
  intros Hin Halloc. split.
  - rewrite (scan_pass_whole (pre ++ 0%N :: post))
      by by eapply allocatable_fits.
    by rewrite total_delta_app, match_count_app, total_delta_cons,
      match_count_cons.
  - destruct (escape_unicode_spec σ in_ _ Hin Halloc) as (out & σ' & Hrun & Hout).
    exists out, σ'. split; [done|]. by rewrite escape_text_app in Hout.
Qed.

End EscaperClaims.

(** * Escaping twice *)

Lemma total_delta_zero_clean t : total_delta t = 0 → clean t.
Proof.
  induction t as [|c t IH]; [constructor|]. rewrite total_delta_cons.
  pose proof (delta_nonneg c). pose proof (total_delta_nonneg t). intros Hz.
  constructor; [|apply IH; lia].
  unfold in_table. apply negb_false_iff, Z.eqb_eq. lia.
Qed.

Lemma escape_text_fixpoint_clean t : escape_text t = t → clean t.
Proof.
  intros Heq. apply total_delta_zero_clean.
  pose proof (escape_text_length t) as Hlen. rewrite Heq in Hlen. lia.
Qed.

Lemma escape_text_keeps_amp s : AMP ∈ s → AMP ∈ escape_text s.
Proof.
  induction s as [|c s IH]; [done|].
  change (escape_text (c :: s)) with (image c ++ escape_text s).
  intros [<-|Hin]%elem_of_cons; apply elem_of_app.
  - left. change (AMP ∈ AMP :: text "amp;"). apply list_elem_of_here.
  - right. by apply IH.
Qed.

Section Twice.
Context `{Runtime}.

(** C6: applying [escape_unicode] to its own output escapes again: the
    second output equals the first only if the first has none of the five
    characters; it differs whenever the input has an ampersand; and from the
    text [&] the first output is [&amp;] and the second [&amp;amp;]. *)
Theorem escape_twice_not_idempotent σ in_ s :
  unicode_at σ in_ s →
  Z.of_nat (length (escape_text (escape_text s))) <= PY_SSIZE_T_MAX →
  (∀ σ' n, 0 <= n <= Z.of_nat (length (escape_text (escape_text s))) →
           alloc_ok σ' n = true) →
  (∃ out1 σ1 out2 σ2,
     escape_unicode in_ σ = Done (Some out1, σ1) ∧
     unicode_at σ1 out1 (escape_text s) ∧
     escape_unicode out1 σ1 = Done (Some out2, σ2) ∧
     unicode_at σ2 out2 (escape_text (escape_text s))) ∧
  (escape_text (escape_text s) = escape_text s → clean (escape_text s)) ∧
  (AMP ∈ s → escape_text (escape_text s) ≠ escape_text s) ∧
  (s = text "&" → escape_text s = text "&amp;" ∧
                  escape_text (escape_text s) = text "&amp;amp;").
Proof.
  intros Hin Hfit Halloc.
  pose proof (escape_text_length (escape_text s)) as Hl2.
  pose proof (total_delta_nonneg (escape_text s)) as Hd2.
  split; [|split; [|split]].
  - destruct (escape_unicode_spec σ in_ s Hin) as (out1 & σ1 & Hrun1 & Hout1).
    { right. split; [lia|]. apply Halloc. lia. }
    destruct (escape_unicode_spec σ1 out1 _ Hout1) as (out2 & σ2 & Hrun2 & Hout2).
    { right. split; [lia|]. apply Halloc. lia. }
    by exists out1, σ1, out2, σ2.
  - apply escape_text_fixpoint_clean.
  - intros Hamp Heq. apply escape_text_fixpoint_clean in Heq.
    apply escape_text_keeps_amp in Hamp.
    by apply (proj1 (Forall_forall _ _) Heq) in Hamp.
  - by intros ->.
Qed.

End Twice.

(** * The entry points *)

Section EntryPoints.
Context `{Runtime}.

(** C3: the output of [escape_unicode] has no double quote, single quote,
    less-than or greater-than sign, and each of its ampersands starts one of
    the five replacement sequences; and [escape], on either way to
    [escape_unicode] (the argument is a unicode object, or is converted to
    one), returns what the call of [markup] on that output returns. *)
Theorem escape_output_fully_escaped_and_wrapped σ in_ s :
  unicode_at σ in_ s → output_allocatable σ s →
  ∃ out σ' t,
    escape_unicode in_ σ = Done (Some out, σ') ∧
    unicode_at σ' out t ∧
    fully_escaped t ∧
    (∀ σ0 σ1 o0 o,
       heap σ0 !! in_ = Some o0 →
       PyInt_CheckExact (ob_type o0) || PyLong_CheckExact (ob_type o0)
         || PyFloat_CheckExact (ob_type o0) || PyBool_Check (ob_type o0)
         || (in_ =? Py_None)%nat = false →
       PyObject_GetAttrString in_ "__html__" σ0 = Done (NULL, σ1) →
       PyErr_Clear σ1 = Done (tt, σ) →
       heap σ !! in_ = Some o →
       PyUnicode_Check (ob_type o) = true →
       escape in_ σ0 =
         (rv ← PyObject_Call markup [out]; Py_DECREF (Some out);; mret rv) σ') ∧
    (∀ text σ0 σ1 σ2 o0 o,
       heap σ0 !! text = Some o0 →
       PyInt_CheckExact (ob_type o0) || PyLong_CheckExact (ob_type o0)
         || PyFloat_CheckExact (ob_type o0) || PyBool_Check (ob_type o0)
         || (text =? Py_None)%nat = false →
       PyObject_GetAttrString text "__html__" σ0 = Done (NULL, σ1) →
       PyErr_Clear σ1 = Done (tt, σ2) →
       heap σ2 !! text = Some o →
       PyUnicode_Check (ob_type o) = false →
       PyObject_Unicode text σ2 = Done (Some in_, σ) →
       escape text σ0 =
         (Py_DECREF (Some in_);;
          rv ← PyObject_Call markup [out]; Py_DECREF (Some out);; mret rv) σ').
Proof.
  intros Hin Halloc.
  destruct (escape_unicode_spec σ in_ s Hin Halloc) as (out & σ' & Hrun & Hout).
  exists out, σ', (escape_text s).
  split; [done|]. split; [done|]. split; [apply escape_text_fully_escaped|].
  split.
  - intros σ0 σ1 o0 o Ho0 Hcond Hattr Hclear Ho Hcheck. unfold escape.
    rewrite (M_bind_done _ _ _ _ _ (Py_TYPE_done _ _ _ Ho0)), Hcond.
    rewrite (M_bind_done _ _ _ _ _ Hattr).
    rewrite (M_bind_done _ _ _ _ _ Hclear).
    rewrite (M_bind_done _ _ _ _ _ (Py_TYPE_done _ _ _ Ho)), Hcheck.
    cbn [negb]. by rewrite (M_bind_done _ _ _ _ _ Hrun).
  - intros text σ0 σ1 σ2 o0 o Ho0 Hcond Hattr Hclear Ho Hcheck Hconv.
    unfold escape.
    rewrite (M_bind_done _ _ _ _ _ (Py_TYPE_done _ _ _ Ho0)), Hcond.
    rewrite (M_bind_done _ _ _ _ _ Hattr).
    rewrite (M_bind_done _ _ _ _ _ Hclear).
    rewrite (M_bind_done _ _ _ _ _ (Py_TYPE_done _ _ _ Ho)), Hcheck.
    cbn [negb]. rewrite (M_bind_done _ _ _ _ _ Hconv).
    by rewrite (M_bind_done _ _ _ _ _ Hrun).
Qed.

(** C9: [soft_unicode] returns a unicode object, of the exact type or of a
    derived type such as [Markup], as it is: the same address, with one more
    reference and the same type and contents; for any other object it
    returns what the conversion [PyObject_Unicode] returns. *)
Theorem soft_unicode_keeps_text σ s o :
  heap σ !! s = Some o →
  (PyUnicode_Check (ob_type o) = true →
   soft_unicode s σ = Done (Some s, incref s σ) ∧
   ∃ o', heap (incref s σ) !! s = Some o' ∧
         ob_type o' = ob_type o ∧ ob_data o' = ob_data o ∧
         ob_refcnt o' = ob_refcnt o + 1) ∧
  (PyUnicode_Check (ob_type o) = false →
   soft_unicode s σ = PyObject_Unicode s σ) ∧
  PyUnicode_Check PyUnicode_Type = true ∧
  PyUnicode_Check Markup_Type = true.
Proof.
  intros Ho. split; [|split; [|done]].
  - intros Hcheck. unfold soft_unicode.
    rewrite (M_bind_done _ _ _ _ _ (Py_TYPE_done _ _ _ Ho)), Hcheck.
    cbn [negb]. rewrite (M_bind_done _ _ _ _ _ (Py_INCREF_done _ _ _ Ho)).
    split; [done|]. unfold incref. rewrite Ho. simpl.
    eexists. rewrite list_lookup_insert_eq by by eapply lookup_lt_Some. done.
  - intros Hcheck. unfold soft_unicode.
    by rewrite (M_bind_done _ _ _ _ _ (Py_TYPE_done _ _ _ Ho)), Hcheck.
Qed.

End EntryPoints.


(** * The claims on concrete heaps of the reference runtime *)

Lemma ref_unicode_at σ a t s :
  heap σ !! a = Some (ref_unicode_of t s) →
  Z.of_nat (length s) <= 2 ^ 63 - 1 →
  @unicode_at ref_runtime σ a s.
Proof. intros Ho Hlen. by exists (ref_unicode_of t s). Qed.

Lemma ref_allocatable σ s :
  Z.of_nat (length (escape_text s)) <= (2 ^ 63 - 1) / 4 - 1 →
  @output_allocatable ref_runtime σ s.
Proof.
  intros Hlen. right. split.
  - simpl. change ((2 ^ 63 - 1) / 4 - 1) with 2305843009213693950 in Hlen. lia.
  - simpl. by apply Z.leb_le.
Qed.

Lemma heap_with_at s :
  Z.of_nat (length s) <= 2 ^ 63 - 1 →
  @unicode_at ref_runtime (heap_with s) 2%nat s.
Proof. intros Hlen. by eapply ref_unicode_at. Qed.

Lemma escape_unicode_concat_images_witness :
  (∃ out σ',
     @escape_unicode ref_runtime 2%nat (heap_with tom_and_jerry)
       = Done (Some out, σ') ∧
     @unicode_at ref_runtime σ' out (concat (map image tom_and_jerry))) ∧
  image QUOT = text "&#34;" ∧ image APOS = text "&#39;" ∧
  image AMP = text "&amp;" ∧ image LT = text "&lt;" ∧ image GT = text "&gt;" ∧
  (∀ c, c ∉ [QUOT; APOS; AMP; LT; GT] → image c = [c]).
Proof.
  apply (@escape_unicode_concat_images ref_runtime).
  - apply heap_with_at. by vm_compute.
  - apply ref_allocatable. by vm_compute.
Defined.

Lemma escape_unicode_length_and_allocation_witness :
  scan_pass (H := ref_runtime) (S (length (buffer tom_and_jerry)))
    (buffer tom_and_jerry) (Z.of_nat (length tom_and_jerry)) 0 0 0
    = Done (total_delta tom_and_jerry, match_count tom_and_jerry) ∧
  @escape_unicode ref_runtime 2%nat (heap_with tom_and_jerry)
    = (out ← @PyUnicode_FromUnicode_NULL ref_runtime (11 + 4);
       match out with
       | None => mret NULL
       | Some out =>
           set_str out (buffer (text "Tom &amp; Jerry"));; mret (Some out)
       end) (heap_with tom_and_jerry).
Proof.
  destruct (@escape_unicode_length_and_allocation ref_runtime
              (heap_with tom_and_jerry) 2%nat tom_and_jerry)
    as (_ & Hscan & Halloc & _).
  - apply heap_with_at. by vm_compute.
  - by vm_compute.
  - split; [exact Hscan|]. apply Halloc. intros Hclean.
    apply clean_match_count in Hclean. by vm_compute in Hclean.
Defined.

Lemma escape_output_fully_escaped_and_wrapped_witness :
  (∃ out σ' t,
     @escape_unicode ref_runtime 2%nat (heap_with tom_and_jerry)
       = Done (Some out, σ') ∧
     @unicode_at ref_runtime σ' out t ∧
     fully_escaped t ∧
     @escape ref_runtime 2%nat (heap_with tom_and_jerry)
       = (rv ← @PyObject_Call ref_runtime (@markup ref_runtime) [out];
          @Py_DECREF ref_runtime (Some out);; mret rv) σ') ∧
  (∃ out σ' t,
     @escape_unicode ref_runtime 3%nat heap_with_count_text
       = Done (Some out, σ') ∧
     @unicode_at ref_runtime σ' out t ∧
     fully_escaped t ∧
     @escape ref_runtime 2%nat heap_with_count
       = (@Py_DECREF ref_runtime (Some 3%nat);;
          rv ← @PyObject_Call ref_runtime (@markup ref_runtime) [out];
          @Py_DECREF ref_runtime (Some out);; mret rv) σ').
Proof.
  split.
  - destruct (@escape_output_fully_escaped_and_wrapped ref_runtime
                (heap_with tom_and_jerry) 2%nat tom_and_jerry)
      as (out & σ' & t & Hrun & Hout & Ht & Hwrap & _).
    + apply heap_with_at. by vm_compute.
    + apply ref_allocatable. by vm_compute.
    + exists out, σ', t. split; [done|]. split; [done|]. split; [done|].
      eapply (Hwrap (heap_with tom_and_jerry)); reflexivity.
  - destruct (@escape_output_fully_escaped_and_wrapped ref_runtime
                heap_with_count_text 3%nat (text "7"))
      as (out & σ' & t & Hrun & Hout & Ht & _ & Hwrap).
    + eapply ref_unicode_at; [reflexivity|by vm_compute].
    + apply ref_allocatable. by vm_compute.
    + exists out, σ', t. split; [done|]. split; [done|]. split; [done|].
      eapply (Hwrap 2%nat heap_with_count); reflexivity.
Defined.

Lemma table_lookup_guarded_witness :
  ∃ out σ',
    @escape_unicode ref_runtime 2%nat (heap_with [60; 8364; 1114111; 63]%N)
      = Done (Some out, σ') ∧
    @unicode_at ref_runtime σ' out
      (flat_map image [60; 8364; 1114111; 63]%N).
Proof.
  apply (@table_lookup_guarded ref_runtime
           (heap_with [60; 8364; 1114111; 63]%N) 2%nat).
  - apply heap_with_at. by vm_compute.
  - by vm_compute.
  - apply ref_allocatable. by vm_compute.
Defined.

Lemma clean_input_is_shared_witness :
  @escape_unicode ref_runtime 2%nat (heap_with hello_world)
  = Done (Some 2%nat, incref 2 (heap_with hello_world)).
Proof.
  apply (@clean_input_is_shared ref_runtime (heap_with hello_world) 2%nat
           hello_world).
  - apply heap_with_at. by vm_compute.
  - intros c Hc Hbad.
    repeat (apply elem_of_cons in Hc as [->|Hc]);
      try (by apply elem_of_nil in Hc);
      repeat (apply elem_of_cons in Hbad as [?|Hbad]); try discriminate;
      by apply elem_of_nil in Hbad.
Defined.

Lemma escape_twice_not_idempotent_witness :
  escape_text (text "&") = text "&amp;" ∧
  escape_text (escape_text (text "&")) = text "&amp;amp;".
Proof.
  apply (@escape_twice_not_idempotent ref_runtime (heap_with (text "&")) 2%nat
           (text "&")).
  - apply heap_with_at. by vm_compute.
  - by vm_compute.
  - intros σ' n Hn. simpl. apply Z.leb_le.
    change (Z.of_nat (length (escape_text (escape_text (text "&")))))
      with 9 in Hn.
    change ((2 ^ 63 - 1) / 4 - 1) with 2305843009213693950. lia.
  - done.
Defined.

Lemma escape_unicode_total_witness :
  @escape_unicode ref_runtime 2%nat (heap_with [])
  = Done (Some 2%nat, incref 2 (heap_with [])) ∧
  escape_text [] = [].
Proof.
  apply (@escape_unicode_total ref_runtime (heap_with []) 2%nat []).
  - apply heap_with_at. by vm_compute.
  - by vm_compute.
  - done.
Defined.



Lemma soft_unicode_keeps_text_witness :
  @soft_unicode ref_runtime 2%nat heap_with_markup
  = Done (Some 2%nat, incref 2 heap_with_markup).
Proof.
  apply (@soft_unicode_keeps_text ref_runtime heap_with_markup 2%nat
           (ref_unicode Markup_Type "<b>")); done.
Defined.

Lemma embedded_nul_processed_witness :
  ∃ out σ',
    @escape_unicode ref_runtime 2%nat (heap_with with_nul)
      = Done (Some out, σ') ∧
    @unicode_at ref_runtime σ' out
      (escape_text (text "a<") ++ 0%N :: escape_text (text ">b")).
Proof.
  apply (@embedded_nul_processed ref_runtime (heap_with with_nul) 2%nat
           (text "a<") (text ">b")).
  - apply heap_with_at. by vm_compute.
  - apply ref_allocatable. by vm_compute.
Defined.

(** * The literal scenarios, run on the reference runtime *)

Example escape_tom_and_jerry :
  returned_text (@escape ref_runtime 2%nat (heap_with (text "Tom & Jerry")))
    = Some (text "Tom &amp; Jerry") ∧
  returned_type (@escape ref_runtime 2%nat (heap_with (text "Tom & Jerry")))
    = Some Markup_Type.
Proof. by vm_compute. Qed.

Example escape_quoted_bold :
  returned_text
    (@escape ref_runtime 2%nat
       (heap_with (text "<b>" ++ QUOT :: text "quote" ++ QUOT :: text "</b>")))
  = Some (text "&lt;b&gt;&#34;quote&#34;&lt;/b&gt;").
Proof. by vm_compute. Qed.

Example escape_obrien :
  returned_text (@escape ref_runtime 2%nat (heap_with (text "O'Brien")))
  = Some (text "O&#39;Brien").
Proof. by vm_compute. Qed.

Example escape_empty :
  returned_text (@escape ref_runtime 2%nat (heap_with [])) = Some [].
Proof. by vm_compute. Qed.

Example escape_hello_world :
  returned_text (@escape ref_runtime 2%nat (heap_with hello_world))
  = Some hello_world.
Proof. by vm_compute. Qed.

(** A [Markup] object is returned by its own [__html__], not escaped. *)
Example escape_markup_not_escaped_again :
  returned_text (@escape ref_runtime 2%nat heap_with_markup)
  = Some (text "<b>").
Proof. by vm_compute. Qed.

(** An instance of a class derived from [int] is not of the exact type: it
    is converted to text and escaped. *)
Example escape_int_subclass :
  returned_text (@escape ref_runtime 2%nat heap_with_count) = Some (text "7") ∧
  @escape ref_runtime 2%nat heap_with_count
    ≠ @PyObject_Call ref_runtime (@markup ref_runtime) [2%nat] heap_with_count.
Proof. split; [by vm_compute|]. vm_compute. congruence. Qed.

(** Without a free allocation the slow path returns NULL, and [escape] then
    calls [markup] without argument and releases a NULL pointer. *)
Example escape_unicode_without_memory :
  @escape_unicode no_memory 2%nat (heap_with tom_and_jerry)
    = Done (NULL, with_MemoryError (heap_with tom_and_jerry)) ∧
  @escape_unicode no_memory 2%nat (heap_with hello_world)
    = Done (Some 2%nat, incref 2 (heap_with hello_world)).
Proof. by vm_compute. Qed.

Example escape_without_memory :
  @escape no_memory 2%nat (heap_with tom_and_jerry) = Fault NullDeref.
Proof. by vm_compute. Qed.

(** * Further properties of the code *)

(** ** The first pass and the terminator cell (lines 60-66) *)

Section FirstPassBeyond.
Context `{Runtime}.

(** One round of the first pass on a cell for which the loop condition
    holds. *)
Lemma scan_pass_round fuel pre c post inp_end dl er :
  c ≠ 0%N ∨ Z.of_nat (length pre) < inp_end →
  0 <= dl → 0 <= er →
  dl + delta c <= PY_SSIZE_T_MAX →
  er + (if in_table c then 1 else 0) <= PY_SSIZE_T_MAX →
  scan_pass (S fuel) (pre ++ c :: post) inp_end (Z.of_nat (length pre)) dl er
  = scan_pass fuel (pre ++ c :: post) inp_end (Z.of_nat (length pre) + 1)
      (dl + delta c) (er + (if in_table c then 1 else 0)).
Proof.
  intros Hcond Hdl Her Hd He. simpl scan_pass.
  rewrite deref_middle, res_bind_done.
  assert (negb (c =? 0)%N || (Z.of_nat (length pre) <? inp_end) = true) as ->.
  { destruct Hcond as [Hc|Hlt].
    - apply N.eqb_neq in Hc. by rewrite Hc.
    - apply Z.ltb_lt in Hlt. by rewrite Hlt, orb_true_r. }
  pose proof (delta_nonneg c) as Hc.
  destruct (N.ltb_spec c ESCAPED_CHARS_TABLE_SIZE) as [Hlt|Hge].
  - rewrite (delta_len_at_below _ Hlt), !res_bind_done.
    fold (in_table c). destruct (in_table c) eqn:Hin.
    + rewrite (ssize_add_ok dl), res_bind_done by lia.
      by rewrite (ssize_add_ok er), res_bind_done by lia.
    + unfold in_table in Hin. apply negb_false_iff, Z.eqb_eq in Hin.
      by rewrite Hin, !Z.add_0_r.
  - rewrite res_bind_done.
    assert (in_table c = false) as ->.
    { unfold in_table. by rewrite (delta_above_table _ Hge). }
    by rewrite (delta_above_table _ Hge), !Z.add_0_r.
Qed.

(** The rounds over a stretch [body] of cells that all keep the loop
    going. *)
Lemma scan_pass_run body : ∀ pre post fuel inp_end dl er,
  (∀ i c, body !! i = Some c →
          c ≠ 0%N ∨ Z.of_nat (length pre + i) < inp_end) →
  0 <= dl → 0 <= er →
  dl + total_delta body <= PY_SSIZE_T_MAX →
  er + match_count body <= PY_SSIZE_T_MAX →
  scan_pass (length body + fuel) (pre ++ body ++ post) inp_end
    (Z.of_nat (length pre)) dl er
  = scan_pass fuel (pre ++ body ++ post) inp_end
      (Z.of_nat (length (pre ++ body)))
      (dl + total_delta body) (er + match_count body).
Proof.
  induction body as [|c body IH]; intros pre post fuel inp_end dl er
    Hcond Hdl Her Hd He.
  { simpl. rewrite app_nil_r. unfold match_count. simpl.
    by rewrite !Z.add_0_r. }
  rewrite total_delta_cons in Hd |- *. rewrite match_count_cons in He |- *.
  pose proof (delta_nonneg c) as Hc.
  pose proof (total_delta_nonneg body) as Hb.
  pose proof (match_count_nonneg body) as Hm.
  simpl length. rewrite Nat.add_succ_l. rewrite <- app_comm_cons.
  rewrite scan_pass_round;
    [|specialize (Hcond 0%nat c eq_refl); by rewrite Nat.add_0_r in Hcond
     |lia|lia|lia|destruct (in_table c); lia].
  replace (pre ++ c :: body ++ post) with ((pre ++ [c]) ++ body ++ post)
    by (by rewrite <- app_assoc).
  replace (Z.of_nat (length pre) + 1) with (Z.of_nat (length (pre ++ [c])))
    by (rewrite length_app; simpl; lia).
  rewrite IH; try (destruct (in_table c); lia).
  - f_equal; [|lia..]. by rewrite <- !app_assoc.
  - intros i c' Hi. specialize (Hcond (S i) c' Hi).
    rewrite length_app. simpl. by replace (length pre + 1 + i)%nat
      with (length pre + S i)%nat by lia.
Qed.

(** X1: the first pass does not stop at the end pointer when the cell there
    is not 0: on a buffer that holds the text [s], then cells [extra] without
    0, then a 0 cell, it runs to that 0 cell and counts the deltas and the
    matches of [extra] as well. *)
Theorem first_pass_runs_to_first_nul s extra rest fuel :
  (∀ c, c ∈ extra → c ≠ 0%N) →
  (length (s ++ extra) < fuel)%nat →
  Z.of_nat (length (s ++ extra)) <= PY_SSIZE_T_MAX →
  total_delta (s ++ extra) <= PY_SSIZE_T_MAX →
  scan_pass fuel (s ++ extra ++ 0%N :: rest) (Z.of_nat (length s)) 0 0 0
  = Done (total_delta (s ++ extra), match_count (s ++ extra)).
Proof.
  intros Hextra Hfuel Hlen Hd.
  pose proof (match_count_le_length (s ++ extra)) as Hm.
  pose proof (total_delta_nonneg (s ++ extra)) as Hd0.
  pose proof (match_count_nonneg (s ++ extra)) as Hm0.
  replace fuel
    with (length (s ++ extra) + S (fuel - length (s ++ extra) - 1))%nat by lia.
  replace (s ++ extra ++ 0%N :: rest) with ([] ++ (s ++ extra) ++ 0%N :: rest)
    by (by rewrite <- app_assoc).
  rewrite (scan_pass_run (s ++ extra) [] (0%N :: rest)); try lia.
  - cbn [app]. simpl scan_pass.
    rewrite (deref_middle (s ++ extra) 0%N rest), res_bind_done. simpl negb.
    replace (Z.of_nat (length (s ++ extra)) <? Z.of_nat (length s))
      with false; [done|].
    symmetry. apply Z.ltb_ge. rewrite length_app. lia.
  - intros i c Hi. simpl.
    destruct (decide (i < length s)%nat) as [Hlt|Hge]; [right; lia|].
    left. apply Hextra. rewrite lookup_app_r in Hi by lia.
    by eapply list_elem_of_lookup_2.
Qed.

(** X2: [escape_unicode] reads the cell after the text: on an object whose
    buffer has no 0 cell at or after the end of the text (in particular on a
    buffer of exactly [length] cells) it faults on a read outside the
    buffer. *)
Theorem escape_unicode_needs_terminator σ in_ o s extra :
  heap σ !! in_ = Some o →
  ob_data o = UnicodeData (Z.of_nat (length s)) (s ++ extra) →
  (∀ c, c ∈ extra → c ≠ 0%N) →
  Z.of_nat (length (s ++ extra)) <= PY_SSIZE_T_MAX →
  total_delta (s ++ extra) <= PY_SSIZE_T_MAX →
  escape_unicode in_ σ = Fault OutOfBounds.
Proof.
  intros Ho Hdata Hextra Hlen Hd. unfold escape_unicode.
  rewrite (M_bind_done _ _ _ _ _ (unicode_fields_done _ _ _ _ _ Ho Hdata)).
  apply M_bind_fault. unfold lift.
  pose proof (match_count_le_length (s ++ extra)) as Hm.
  pose proof (total_delta_nonneg (s ++ extra)) as Hd0.
  pose proof (match_count_nonneg (s ++ extra)) as Hm0.
  replace (S (length (s ++ extra))) with (length (s ++ extra) + 1)%nat by lia.
  change (0 + Z.of_nat (length s)) with (Z.of_nat (length s)).
  pose proof (scan_pass_run (s ++ extra) [] [] 1 (Z.of_nat (length s)) 0 0)
    as Hrun.
  cbn [app length] in Hrun. change (Z.of_nat 0) with 0 in Hrun.
  rewrite app_nil_r in Hrun. rewrite Hrun; try lia.
  - simpl scan_pass. unfold deref.
    destruct (Z.ltb_spec (Z.of_nat (length (s ++ extra))) 0); [lia|].
    by rewrite Nat2Z.id, lookup_ge_None_2.
  - intros i c Hi.
    destruct (decide (i < length s)%nat) as [Hlt|Hge]; [right; lia|].
    left. apply Hextra. rewrite lookup_app_r in Hi by lia.
    by eapply list_elem_of_lookup_2.
Qed.

End FirstPassBeyond.

(** ** What [escape_unicode] returns, and what it leaves alone *)

Lemma match_count_total_delta s :
  3 * match_count s <= total_delta s <= 4 * match_count s.
Proof.
  induction s as [|c s IH]; [done|].
  rewrite total_delta_cons, match_count_cons. unfold in_table.
  destruct (delta_cases c) as [[-> _]|[[-> _]|[-> _]]]; simpl; lia.
Qed.

(** The five images begin with an ampersand and no one of them begins
    another; the image of any other code unit is that code unit, which is no
    ampersand.  So the first image of an escaped text can be read back. *)
Lemma image_app_inj c c' t t' :
  image c ++ t = image c' ++ t' → c = c' ∧ t = t'.
Proof.
  intros Heq.
  destruct (in_table c) eqn:Hc, (in_table c') eqn:Hc'.
  - unfold in_table in Hc, Hc'.
    destruct (delta_cases c) as [[_ Hq]|[[_ Hq]|[Hz _]]];
      [| |by rewrite Hz in Hc];
      (destruct (delta_cases c') as [[_ Hq']|[[_ Hq']|[Hz' _]]];
        [| |by rewrite Hz' in Hc']);
      destruct_or!; subst c c'; by simplify_eq.
  - rewrite (image_not_in_table c' Hc') in Heq.
    destruct (image_in_table c Hc) as (tail & Him & _). rewrite Him in Heq.
    destruct (not_in_table_not_special c' Hc') as (_ & _ & Hamp & _).
    by simplify_eq.
  - rewrite (image_not_in_table c Hc) in Heq.
    destruct (image_in_table c' Hc') as (tail & Him & _). rewrite Him in Heq.
    destruct (not_in_table_not_special c Hc) as (_ & _ & Hamp & _).
    by simplify_eq.
  - rewrite (image_not_in_table c Hc), (image_not_in_table c' Hc') in Heq.
    by simplify_eq.
Qed.

Lemma escape_text_nil_inv s : escape_text s = [] → s = [].
Proof.
  destruct s as [|c s]; [done|].
  change (escape_text (c :: s)) with (image c ++ escape_text s).
  intros Heq. apply (f_equal length) in Heq. rewrite length_app in Heq.
  pose proof (image_length c). pose proof (delta_nonneg c). simpl in Heq. lia.
Qed.

Lemma escape_text_inj s : ∀ s', escape_text s = escape_text s' → s = s'.
Proof.
  induction s as [|c s IH]; intros s' Heq.
  - symmetry. apply escape_text_nil_inv. by rewrite <- Heq.
  - destruct s' as [|c' s']; [by apply escape_text_nil_inv in Heq|].
    change (image c ++ escape_text s = image c' ++ escape_text s') in Heq.
    apply image_app_inj in Heq as [-> Heq]. f_equal. by apply IH.
Qed.

Section Outputs.
Context `{Runtime}.

Lemma unicode_at_unique σ a s t :
  unicode_at σ a s → unicode_at σ a t → s = t.
Proof.
  intros (o & Ho & Hd & _) (o' & Ho' & Hd' & _).
  rewrite Ho in Ho'. injection Ho' as <-. rewrite Hd in Hd'.
  injection Hd' as _ Hbuf. unfold buffer in Hbuf.
  by apply app_inj_tail in Hbuf as [? _].
Qed.

(** Whatever object a run returns, it holds the escaped text. *)
Lemma escape_unicode_result σ in_ s out σ' t :
  unicode_at σ in_ s →
  Z.of_nat (length (escape_text s)) <= PY_SSIZE_T_MAX →
  escape_unicode in_ σ = Done (Some out, σ') →
  unicode_at σ' out t →
  t = escape_text s.
Proof.
  intros Hin Hfit Hrun Hout. destruct (clean_dec s) as [Hs|Hs].
  - rewrite (escape_unicode_clean σ in_ s Hin Hs) in Hrun.
    injection Hrun as <- <-. rewrite (clean_escape_text s Hs).
    symmetry. eapply unicode_at_unique; [|done]. by apply unicode_at_incref.
  - rewrite (escape_unicode_dirty σ in_ s Hin Hs Hfit) in Hrun.
    destruct (alloc_ok σ _); [|done]. injection Hrun as <- <-.
    symmetry. eapply unicode_at_unique; [|done]. by apply unicode_at_new.
Qed.

(** X3: when a copy is made, the result is a new object of the exact type
    [unicode] with reference count 1, whatever the type of the input; every
    object that was on the heap, the input included, is left as it was
    (reference counts too), and so is the error indicator. *)
Theorem slow_path_allocates_one_object σ in_ s :
  unicode_at σ in_ s → ¬ clean s →
  Z.of_nat (length (escape_text s)) <= PY_SSIZE_T_MAX →
  alloc_ok σ (Z.of_nat (length (escape_text s))) = true →
  ∃ σ' o',
    escape_unicode in_ σ = Done (Some (length (heap σ)), σ') ∧
    heap σ' = heap σ ++ [o'] ∧
    ob_refcnt o' = 1 ∧ ob_type o' = PyUnicode_Type ∧
    ob_data o' = UnicodeData (Z.of_nat (length (escape_text s)))
                   (buffer (escape_text s)) ∧
    (∀ a o, heap σ !! a = Some o → heap σ' !! a = Some o) ∧
    curexc σ' = curexc σ.
Proof.
  intros Hin Hs Hfit Hok. eexists _, _.
  rewrite (escape_unicode_dirty σ in_ s Hin Hs Hfit), Hok.
  split; [reflexivity|]. unfold with_new_unicode. simpl.
  split; [reflexivity|]. repeat split.
  intros a o Ho. by apply lookup_app_l_Some.
Qed.

(** X4: [escape_unicode] returns the input object itself exactly when the
    text has none of the five characters, and exactly then the output is as
    long as the input; otherwise it is longer, by 3 to 4 code units for each
    match, and never more than five times as long. *)
Theorem same_object_iff_clean σ in_ s :
  unicode_at σ in_ s → output_allocatable σ s →
  ∃ out σ' t,
    escape_unicode in_ σ = Done (Some out, σ') ∧
    unicode_at σ' out t ∧
    (out = in_ ↔ clean s) ∧
    (length t = length s ↔ clean s) ∧
    Z.of_nat (length s) + 3 * match_count s <= Z.of_nat (length t)
      <= Z.of_nat (length s) + 4 * match_count s ∧
    (length s <= length t <= 5 * length s)%nat.
Proof.
  intros Hin Halloc.
  pose proof (escape_text_length s) as Hlen.
  pose proof (match_count_total_delta s) as Hmd.
  pose proof (match_count_nonneg s) as Hm0.
  pose proof (match_count_le_length s) as Hml.
  destruct (clean_dec s) as [Hs|Hs].
  - exists in_, (incref in_ σ), s.
    split; [by eapply escape_unicode_clean|].
    split; [by apply unicode_at_incref|].
    apply clean_match_count in Hs as Hz. repeat split; try done; lia.
  - destruct Halloc as [?|[Hfit Hok]]; [done|].
    exists (length (heap σ)), (with_new_unicode (escape_text s) σ),
      (escape_text s).
    split; [by rewrite (escape_unicode_dirty σ in_ s Hin Hs Hfit), Hok|].
    split; [by apply unicode_at_new|].
    assert (0 < match_count s) as Hpos.
    { destruct (Z.eq_dec (match_count s) 0) as [Hz|?]; [|lia].
      by apply clean_match_count in Hz. }
    destruct Hin as (o & Ho & _). apply lookup_lt_Some in Ho.
    repeat split; try done; lia.
Qed.

(** X5: escaping loses nothing: two runs of [escape_unicode] that return
    objects with the same text were given the same text. *)
Theorem escape_unicode_injective σ a s σ1 b s' out out' σ' σ1' t :
  unicode_at σ a s → unicode_at σ1 b s' →
  Z.of_nat (length (escape_text s)) <= PY_SSIZE_T_MAX →
  Z.of_nat (length (escape_text s')) <= PY_SSIZE_T_MAX →
  escape_unicode a σ = Done (Some out, σ') → unicode_at σ' out t →
  escape_unicode b σ1 = Done (Some out', σ1') → unicode_at σ1' out' t →
  s = s'.
Proof.
  intros Ha Hb Hfit Hfit' Hrun Hout Hrun' Hout'.
  apply escape_text_inj.
  rewrite <- (escape_unicode_result σ a s out σ' t) by done.
  by rewrite <- (escape_unicode_result σ1 b s' out' σ1' t).
Qed.

(** X6: escaping distributes over concatenation: the output for a text and
    the output for another, put end to end, are the output for the two texts
    put end to end. *)
Theorem escape_unicode_concat σ a b ab s t out_a out_b out_ab σa σb σab x y z :
  unicode_at σ a s → unicode_at σ b t → unicode_at σ ab (s ++ t) →
  Z.of_nat (length (escape_text (s ++ t))) <= PY_SSIZE_T_MAX →
  escape_unicode a σ = Done (Some out_a, σa) → unicode_at σa out_a x →
  escape_unicode b σ = Done (Some out_b, σb) → unicode_at σb out_b y →
  escape_unicode ab σ = Done (Some out_ab, σab) → unicode_at σab out_ab z →
  z = x ++ y.
Proof.
  intros Ha Hb Hab Hfit Hra Hx Hrb Hy Hrab Hz.
  rewrite escape_text_app, length_app in Hfit.
  rewrite (escape_unicode_result σ a s out_a σa x) by (done || lia).
  rewrite (escape_unicode_result σ b t out_b σb y) by (done || lia).
  rewrite (escape_unicode_result σ ab (s ++ t) out_ab σab z);
    [apply escape_text_app|done| |done|done].
  rewrite escape_text_app, length_app. lia.
Qed.

End Outputs.

(** ** [escape]: the [__html__] protocol and the failed allocation *)

Section EscapeEdges.
Context `{Runtime}.

(** X7: when the object has an [__html__] attribute and is not of a bypassed
    type, [escape] returns what the call of that attribute returns, as it
    is: it does not look at the result, convert it, escape it or call
    [markup] on it, also when the object is a unicode object whose text has
    some of the five characters. *)
Theorem html_result_is_returned_as_is σ σ1 text o html :
  heap σ !! text = Some o →
  PyInt_CheckExact (ob_type o) || PyLong_CheckExact (ob_type o)
    || PyFloat_CheckExact (ob_type o) || PyBool_Check (ob_type o)
    || (text =? Py_None)%nat = false →
  PyObject_GetAttrString text "__html__" σ = Done (Some html, σ1) →
  escape text σ =
    (rv ← PyObject_Call (Some html) []; Py_DECREF (Some html);; mret rv) σ1.
Proof.
  intros Ho Hcond Hattr. unfold escape.
  rewrite (M_bind_done _ _ _ _ _ (Py_TYPE_done _ _ _ Ho)), Hcond.
  by rewrite (M_bind_done _ _ _ _ _ Hattr).
Qed.

(** X8: [escape] does not test the result of [escape_unicode] for NULL.
    When the text has a match and the allocation of the output fails,
    [escape] calls [markup] without any argument, with MemoryError set, and
    if that call returns it applies [Py_DECREF] to NULL: in no case does
    [escape] return. *)
Theorem escape_after_failed_allocation σ0 σ1 σ in_ o0 o s :
  heap σ0 !! in_ = Some o0 →
  PyInt_CheckExact (ob_type o0) || PyLong_CheckExact (ob_type o0)
    || PyFloat_CheckExact (ob_type o0) || PyBool_Check (ob_type o0)
    || (in_ =? Py_None)%nat = false →
  PyObject_GetAttrString in_ "__html__" σ0 = Done (NULL, σ1) →
  PyErr_Clear σ1 = Done (tt, σ) →
  heap σ !! in_ = Some o →
  PyUnicode_Check (ob_type o) = true →
  unicode_at σ in_ s → ¬ clean s →
  Z.of_nat (length (escape_text s)) <= PY_SSIZE_T_MAX →
  alloc_ok σ (Z.of_nat (length (escape_text s))) = false →
  escape in_ σ0 =
    match PyObject_Call markup [] (with_MemoryError σ) with
    | Done _ => Fault NullDeref
    | Fault f => Fault f
    end ∧
  ∀ r, escape in_ σ0 ≠ Done r.
Proof.
  intros Ho0 Hcond Hattr Hclear Ho Hcheck Hin Hs Hfit Hfail.
  assert (escape in_ σ0 =
          match PyObject_Call markup [] (with_MemoryError σ) with
          | Done _ => Fault NullDeref
          | Fault f => Fault f
          end) as Heq.
  { unfold escape.
    rewrite (M_bind_done _ _ _ _ _ (Py_TYPE_done _ _ _ Ho0)), Hcond.
    rewrite (M_bind_done _ _ _ _ _ Hattr).
    rewrite (M_bind_done _ _ _ _ _ Hclear).
    rewrite (M_bind_done _ _ _ _ _ (Py_TYPE_done _ _ _ Ho)), Hcheck.
    cbn [negb].
    erewrite M_bind_done;
      [|by rewrite (escape_unicode_dirty σ in_ s Hin Hs Hfit), Hfail].
    unfold PyObject_CallFunctionObjArgs. cbn [va_args].
    unfold mbind at 1, M_bind at 1.
    by destruct (PyObject_Call markup [] (with_MemoryError σ)) as [[rv σm]|f]. }
  split; [done|]. intros r. rewrite Heq.
  by destruct (PyObject_Call markup [] (with_MemoryError σ)).
Qed.

End EscapeEdges.

(** ** [tb_set_next] *)

Module TracebackLinks.
Import Traceback.

Section Links.
Context `{Traceback.Runtime}.

Lemma bind_done {A B} (m : M A) (k : A → M B) σ a σ' :
  m σ = Done (a, σ') → (m ≫= k) σ = k a σ'.
Proof. intros E. unfold mbind, M_bind. by rewrite E. Qed.

Lemma bind_inv {A B} (m : M A) (k : A → M B) σ r :
  (m ≫= k) σ = Done r → ∃ a σ1, m σ = Done (a, σ1) ∧ k a σ1 = Done r.
Proof.
  unfold mbind, M_bind. destruct (m σ) as [[a σ1]|f]; [|done].
  intros Hk. by exists a, σ1.
Qed.

Lemma tb_get_object_done σ a o :
  heap σ !! a = Some o → get_object a σ = Done (o, σ).
Proof. intros E. unfold get_object. by rewrite E. Qed.

Lemma tb_Py_TYPE_done σ a t :
  type_of σ a = Some t → Py_TYPE a σ = Done (t, σ).
Proof.
  unfold type_of, Py_TYPE. destruct (heap σ !! a) as [o|] eqn:Ho; [|done].
  intros [= <-]. by rewrite (bind_done _ _ _ _ _ (tb_get_object_done _ _ _ Ho)).
Qed.

Lemma tb_Py_INCREF_done σ a :
  is_Some (heap σ !! a) → Py_INCREF a σ = Done (tt, adjust a 1 σ).
Proof.
  intros [o Ho]. unfold Py_INCREF, adjust.
  rewrite (bind_done _ _ _ _ _ (tb_get_object_done _ _ _ Ho)). by rewrite Ho.
Qed.

(** A release that does not bring the count to 0 calls no deallocator. *)
Lemma Py_XDECREF_done σ a r :
  refcnt σ a = Some r → r ≠ 1 →
  Py_XDECREF (Some a) σ = Done (tt, adjust a (-1) σ).
Proof.
  unfold refcnt. destruct (heap σ !! a) as [o|] eqn:Ho; [|done].
  intros [= <-] Hr. unfold Py_XDECREF, adjust.
  rewrite (bind_done _ _ _ _ _ (tb_get_object_done _ _ _ Ho)).
  unfold set_object. unfold mbind at 1, M_bind at 1. rewrite Ho.
  destruct (Z.eqb_spec (ob_refcnt o - 1) 0); [lia|done].
Qed.

Lemma get_tb_next_done σ a n :
  tb_next_of σ a = Some n → get_tb_next a σ = Done (n, σ).
Proof.
  unfold tb_next_of, get_tb_next.
  destruct (heap σ !! a) as [o|] eqn:Ho; [|done]. simpl.
  rewrite (bind_done _ _ _ _ _ (tb_get_object_done _ _ _ Ho)).
  destruct (ob_data o); [|done]. by intros [= <-].
Qed.

Lemma set_tb_next_done σ a n n' :
  tb_next_of σ a = Some n → set_tb_next a n' σ = Done (tt, link a n' σ).
Proof.
  unfold tb_next_of, set_tb_next, link.
  destruct (heap σ !! a) as [o|] eqn:Ho; [|done]. simpl.
  rewrite (bind_done _ _ _ _ _ (tb_get_object_done _ _ _ Ho)).
  by destruct (ob_data o).
Qed.

(** What [adjust] and [link] change. *)
Lemma refcnt_adjust σ a d b :
  refcnt (adjust a d σ) b
  = (fun r => r + if bool_decide (a = b) then d else 0) <$> refcnt σ b.
Proof.
  unfold refcnt, adjust. destruct (heap σ !! a) as [o|] eqn:Ho.
  - simpl. case_bool_decide as Hab.
    + subst b. rewrite list_lookup_insert_eq by by eapply lookup_lt_Some.
      by rewrite Ho.
    + rewrite list_lookup_insert_ne by done.
      destruct (heap σ !! b); simpl; [|done]. f_equal. lia.
  - case_bool_decide as Hab; [subst b; by rewrite Ho|].
    destruct (heap σ !! b); simpl; [|done]. f_equal. lia.
Qed.

Lemma type_of_adjust σ a d b : type_of (adjust a d σ) b = type_of σ b.
Proof.
  unfold type_of, adjust. destruct (heap σ !! a) as [o|] eqn:Ho; [|done].
  simpl. destruct (decide (a = b)) as [->|Hab].
  - rewrite list_lookup_insert_eq by by eapply lookup_lt_Some. by rewrite Ho.
  - by rewrite list_lookup_insert_ne.
Qed.

Lemma tb_next_of_adjust σ a d b : tb_next_of (adjust a d σ) b = tb_next_of σ b.
Proof.
  unfold tb_next_of, adjust. destruct (heap σ !! a) as [o|] eqn:Ho; [|done].
  simpl. destruct (decide (a = b)) as [->|Hab].
  - rewrite list_lookup_insert_eq by by eapply lookup_lt_Some. by rewrite Ho.
  - by rewrite list_lookup_insert_ne.
Qed.

Lemma refcnt_link σ a n b : refcnt (link a n σ) b = refcnt σ b.
Proof.
  unfold refcnt, link. destruct (heap σ !! a) as [o|] eqn:Ho; [|done].
  simpl. destruct (decide (a = b)) as [->|Hab].
  - rewrite list_lookup_insert_eq by by eapply lookup_lt_Some. by rewrite Ho.
  - by rewrite list_lookup_insert_ne.
Qed.

Lemma type_of_link σ a n b : type_of (link a n σ) b = type_of σ b.
Proof.
  unfold type_of, link. destruct (heap σ !! a) as [o|] eqn:Ho; [|done].
  simpl. destruct (decide (a = b)) as [->|Hab].
  - rewrite list_lookup_insert_eq by by eapply lookup_lt_Some. by rewrite Ho.
  - by rewrite list_lookup_insert_ne.
Qed.

Lemma tb_next_of_link_eq σ a n :
  is_Some (heap σ !! a) → tb_next_of (link a n σ) a = Some n.
Proof.
  intros [o Ho]. unfold tb_next_of, link. rewrite Ho. simpl.
  by rewrite list_lookup_insert_eq by by eapply lookup_lt_Some.
Qed.

Lemma tb_next_of_link_ne σ a n b :
  a ≠ b → tb_next_of (link a n σ) b = tb_next_of σ b.
Proof.
  intros Hab. unfold tb_next_of, link.
  destruct (heap σ !! a) as [o|] eqn:Ho; [|done]. simpl.
  by rewrite list_lookup_insert_ne.
Qed.

Lemma curexc_adjust σ a d : curexc (adjust a d σ) = curexc σ.
Proof. unfold adjust. by destruct (heap σ !! a). Qed.

Lemma curexc_link σ a n : curexc (link a n σ) = curexc σ.
Proof. unfold link. by destruct (heap σ !! a). Qed.

Lemma is_Some_refcnt σ a : is_Some (refcnt σ a) ↔ is_Some (heap σ !! a).
Proof. unfold refcnt. by rewrite fmap_is_Some. Qed.

Lemma refcnt_adjust_ptr σ p d b :
  refcnt (adjust_ptr p d σ) b
  = (fun r => r + d * points_to p b) <$> refcnt σ b.
Proof.
  unfold points_to. destruct p as [a|]; simpl.
  - rewrite refcnt_adjust. destruct (refcnt σ b); simpl; [|done]. f_equal.
    repeat case_bool_decide; simplify_eq; lia.
  - destruct (refcnt σ b); simpl; [|done]. f_equal.
    repeat case_bool_decide; simplify_eq; lia.
Qed.

Lemma type_of_adjust_ptr σ p d b : type_of (adjust_ptr p d σ) b = type_of σ b.
Proof. destruct p; [apply type_of_adjust|done]. Qed.

Lemma tb_next_of_adjust_ptr σ p d b :
  tb_next_of (adjust_ptr p d σ) b = tb_next_of σ b.
Proof. destruct p; [apply tb_next_of_adjust|done]. Qed.

Lemma curexc_adjust_ptr σ p d : curexc (adjust_ptr p d σ) = curexc σ.
Proof. destruct p; [apply curexc_adjust|done]. Qed.

Lemma type_of_is_Some σ a t : type_of σ a = Some t → is_Some (heap σ !! a).
Proof. unfold type_of. destruct (heap σ !! a); [by eexists|done]. Qed.

Lemma tb_next_of_is_Some σ a n :
  tb_next_of σ a = Some n → is_Some (heap σ !! a).
Proof. unfold tb_next_of. destruct (heap σ !! a); [by eexists|done]. Qed.

(** The run of [tb_set_next] on a traceback and a [next] that is [None] or a
    traceback, when the release of the old [tb_next] calls no deallocator:
    acquire the new link, store it, release the old one, acquire [None]. *)
Lemma tb_set_next_run σ tb next old new :
  type_of σ tb = Some PyTraceBack_Type →
  tb_next_of σ tb = Some old →
  is_Some (heap σ !! Py_None) →
  (next = Py_None ∧ new = NULL) ∨
  (next ≠ Py_None ∧ new = Some next ∧
   type_of σ next = Some PyTraceBack_Type) →
  (∀ a, old = Some a →
        ∃ r, refcnt σ a = Some r ∧ r + points_to new a ≠ 1) →
  tb_set_next [tb; next] σ
  = Done (Some Py_None,
          adjust Py_None 1
            (adjust_ptr old (-1) (link tb new (adjust_ptr new 1 σ)))).
Proof.
  intros Htb Hold Hnone Hnext Hrel. unfold tb_set_next.
  erewrite bind_done; cycle 1.
  { unfold PyArg_ParseTuple.
    rewrite (bind_done _ _ _ _ _ (tb_Py_TYPE_done _ _ _ Htb)). done. }
  cbn beta iota.
  (* the check of [next] *)
  erewrite (bind_done _ _ σ (Some new) (adjust_ptr new 1 σ)); cycle 1.
  { destruct Hnext as [[-> ->]|(Hne & -> & Hty)].
    - by rewrite Nat.eqb_refl.
    - apply Nat.eqb_neq in Hne. rewrite Hne.
      rewrite (bind_done _ _ _ _ _ (tb_Py_TYPE_done _ _ _ Hty)). simpl.
      by rewrite (bind_done _ _ _ _ _
                    (tb_Py_INCREF_done _ _ (type_of_is_Some _ _ _ Hty))). }
  cbn beta iota.
  (* the link *)
  erewrite bind_done;
    [|apply get_tb_next_done; by rewrite tb_next_of_adjust_ptr].
  erewrite bind_done;
    [|eapply set_tb_next_done; by rewrite tb_next_of_adjust_ptr].
  (* the release of the old link *)
  erewrite (bind_done _ _ _ tt
              (adjust_ptr old (-1) (link tb new (adjust_ptr new 1 σ))));
    cycle 1.
  { destruct old as [a|]; [|done].
    destruct (Hrel a eq_refl) as (r & Hr & Hne).
    eapply Py_XDECREF_done; [|exact Hne].
    rewrite refcnt_link, refcnt_adjust_ptr, Hr. simpl. f_equal. lia. }
  (* the reference to [None] *)
  erewrite bind_done; [done|]. apply tb_Py_INCREF_done.
  apply is_Some_refcnt. rewrite refcnt_adjust_ptr, refcnt_link,
    refcnt_adjust_ptr, !fmap_is_Some. by apply is_Some_refcnt.
Qed.

Lemma Py_TYPE_inv σ a t σ1 :
  Py_TYPE a σ = Done (t, σ1) → σ1 = σ ∧ type_of σ a = Some t.
Proof.
  unfold Py_TYPE, type_of. intros (o & σo & Hget & Hret)%bind_inv.
  unfold get_object in Hget. destruct (heap σ !! a); [|done].
  injection Hget as <- <-. by injection Hret as <- <-.
Qed.

(** The part of [tb_set_next] after the checks never returns NULL. *)
Lemma link_part_not_null tb next σ σ' :
  (old ← get_tb_next tb;
   set_tb_next tb next;;
   Py_XDECREF old;;
   Py_INCREF Py_None;;
   mret (Some Py_None)) σ ≠ Done (NULL, σ').
Proof.
  intros (old & σ1 & _ & Hrun)%bind_inv.
  apply bind_inv in Hrun as (? & σ2 & _ & Hrun).
  apply bind_inv in Hrun as (? & σ3 & _ & Hrun).
  apply bind_inv in Hrun as (? & σ4 & _ & Hrun).
  done.
Qed.

(** X10: [tb_set_next] returns NULL only for a TypeError of its arguments
    (not two of them, the first one no traceback, or the second one neither
    [None] nor a traceback), and then it has changed no object: no link, no
    reference count. *)
Theorem tb_set_next_failure args σ σ' :
  tb_set_next args σ = Done (NULL, σ') →
  heap σ' = heap σ ∧ curexc σ' = Some PyExc_TypeError ∧
  (length args ≠ 2%nat ∨
   ∃ tb next, args = [tb; next] ∧
     (type_of σ tb ≠ Some PyTraceBack_Type ∨
      (next ≠ Py_None ∧ type_of σ next ≠ Some PyTraceBack_Type))).
Proof.
  intros Hrun. destruct args as [|tb [|next [|x rest]]];
    try (injection Hrun as <-; by repeat split; try left).
  unfold tb_set_next in Hrun.
  apply bind_inv in Hrun as (parsed & σ1 & Hparse & Hrun).
  unfold PyArg_ParseTuple in Hparse.
  apply bind_inv in Hparse as (t & σ2 & [-> Hty]%Py_TYPE_inv & Hparse).
  unfold PyTraceBack_Check in Hparse. case_bool_decide as Ht.
  - injection Hparse as <- <-. cbn beta iota in Hrun.
    apply bind_inv in Hrun as (checked & σ3 & Hcheck & Hrun).
    destruct (Nat.eqb_spec next Py_None) as [->|Hne].
    + injection Hcheck as <- <-. by apply link_part_not_null in Hrun.
    + apply bind_inv in Hcheck as (t' & σ4 & [-> Hty']%Py_TYPE_inv & Hcheck).
      unfold PyTraceBack_Check in Hcheck. case_bool_decide as Ht'.
      * simpl in Hcheck.
        apply bind_inv in Hcheck as (? & σ5 & _ & Hcheck).
        injection Hcheck as <- <-. by apply link_part_not_null in Hrun.
      * injection Hcheck as <- <-. injection Hrun as <-.
        repeat split. right. exists tb, next. split; [done|]. right.
        split; [done|]. rewrite Hty'. congruence.
  - injection Hparse as <- <-. injection Hrun as <-.
    repeat split. right. exists tb, next. split; [done|]. left.
    rewrite Hty. congruence.
Qed.

(** X11: on a traceback [tb] and a [next] that is [None] or a traceback
    ([tb] itself included), when the release of the old link frees nothing,
    [tb_set_next] returns [None] and stores NULL for [None], else [next], in
    [tb->tb_next]; the new link gains a reference, the old one loses one,
    [None] gains one; no other link, no type and no other count changes. *)
Theorem tb_set_next_links σ tb next old new :
  type_of σ tb = Some PyTraceBack_Type →
  tb_next_of σ tb = Some old →
  is_Some (heap σ !! Py_None) →
  (next = Py_None ∧ new = NULL) ∨
  (next ≠ Py_None ∧ new = Some next ∧
   type_of σ next = Some PyTraceBack_Type) →
  (∀ a, old = Some a →
        ∃ r, refcnt σ a = Some r ∧ r + points_to new a ≠ 1) →
  ∃ σ',
    tb_set_next [tb; next] σ = Done (Some Py_None, σ') ∧
    tb_next_of σ' tb = Some new ∧
    (∀ a, a ≠ tb → tb_next_of σ' a = tb_next_of σ a) ∧
    (∀ a, type_of σ' a = type_of σ a) ∧
    (∀ a, refcnt σ' a
          = (fun r => r + points_to new a - points_to old a
                        + points_to (Some Py_None) a) <$> refcnt σ a) ∧
    curexc σ' = curexc σ.
Proof.
  intros Htb Hold Hnone Hnext Hrel. eexists.
  split; [by apply (tb_set_next_run σ tb next old new)|].
  split; [|split; [|split; [|split]]].
  - rewrite tb_next_of_adjust, tb_next_of_adjust_ptr.
    apply tb_next_of_link_eq. apply is_Some_refcnt.
    rewrite refcnt_adjust_ptr, fmap_is_Some. apply is_Some_refcnt.
    by eapply type_of_is_Some.
  - intros a Ha. rewrite tb_next_of_adjust, tb_next_of_adjust_ptr.
    by rewrite tb_next_of_link_ne, tb_next_of_adjust_ptr.
  - intros a. by rewrite type_of_adjust, type_of_adjust_ptr, type_of_link,
      type_of_adjust_ptr.
  - intros a. rewrite refcnt_adjust, refcnt_adjust_ptr, refcnt_link,
      refcnt_adjust_ptr.
    destruct (refcnt σ a); simpl; [|done]. f_equal. unfold points_to.
    repeat case_bool_decide; simplify_eq; lia.
  - by rewrite curexc_adjust, curexc_adjust_ptr, curexc_link,
      curexc_adjust_ptr.
Qed.

(** X12: setting again the link that is set changes nothing but the count
    of [None]: the new reference is taken before the old one is released, so
    that the count of [next] never falls to 0 and no deallocator runs, even
    when the link is its only reference. *)
Theorem tb_set_next_same_link σ tb next r :
  type_of σ tb = Some PyTraceBack_Type →
  tb_next_of σ tb = Some (Some next) →
  type_of σ next = Some PyTraceBack_Type →
  next ≠ Py_None →
  is_Some (heap σ !! Py_None) →
  refcnt σ next = Some r → r ≠ 0 →
  ∃ σ',
    tb_set_next [tb; next] σ = Done (Some Py_None, σ') ∧
    (∀ a, tb_next_of σ' a = tb_next_of σ a) ∧
    (∀ a, type_of σ' a = type_of σ a) ∧
    (∀ a, refcnt σ' a
          = (fun r => r + points_to (Some Py_None) a) <$> refcnt σ a).
Proof.
  intros Htb Hold Hty Hne Hnone Hr Hr0. eexists.
  split; [apply (tb_set_next_run σ tb next (Some next) (Some next));
          try done|].
  - right. done.
  - intros a [= <-]. exists r. split; [done|]. unfold points_to.
    rewrite bool_decide_eq_true_2 by done. lia.
  - split; [|split].
    + intros a. rewrite tb_next_of_adjust, tb_next_of_adjust_ptr.
      destruct (decide (tb = a)) as [<-|Hta].
      * rewrite tb_next_of_link_eq; [done|]. apply is_Some_refcnt.
        rewrite refcnt_adjust_ptr, fmap_is_Some. apply is_Some_refcnt.
        by eapply type_of_is_Some.
      * by rewrite tb_next_of_link_ne, tb_next_of_adjust_ptr.
    + intros a. by rewrite type_of_adjust, type_of_adjust_ptr, type_of_link,
        type_of_adjust_ptr.
    + intros a. rewrite refcnt_adjust, refcnt_adjust_ptr, refcnt_link,
        refcnt_adjust_ptr.
      destruct (refcnt σ a); simpl; [|done]. f_equal. unfold points_to.
      repeat case_bool_decide; simplify_eq; lia.
Qed.

End Links.
End TracebackLinks.

(** ** [escape]: the references it takes and gives back (lines 139-145) *)

Section EscapeReferences.
Context `{Runtime}.

Lemma M_bind_same {A B} (m m' : M A) (k : A → M B) σ σ' :
  m σ = m' σ' → (m ≫= k) σ = (m' ≫= k) σ'.
Proof. intros E. unfold mbind, M_bind. by rewrite E. Qed.


Lemma Py_DECREF_last σ a o :
  heap σ !! a = Some o → ob_refcnt o - 1 = 0 →
  Py_DECREF (Some a) σ
  = _Py_Dealloc a (mkInterp (<[a := mkPyObject (ob_refcnt o - 1) (ob_type o)
                                       (ob_data o)]> (heap σ)) (curexc σ)).
Proof.
  intros Ho Hr. unfold Py_DECREF.
  rewrite (M_bind_done _ _ _ _ _ (get_object_done _ _ _ Ho)).
  erewrite M_bind_done; [|by unfold set_object].
  apply Z.eqb_eq in Hr. by rewrite Hr.
Qed.


(** X14: on a unicode object without [__html__] whose text has a match,
    the copy that [escape_unicode] made lives only until [markup] has been
    called on it: when that call leaves the copy as it is, its only
    reference is released, and [escape] goes on with its deallocation and
    returns what the call returned. *)
Theorem escape_releases_the_copy σ0 σ1 σ in_ o0 o s rv σm :
  heap σ0 !! in_ = Some o0 →
  PyInt_CheckExact (ob_type o0) || PyLong_CheckExact (ob_type o0)
    || PyFloat_CheckExact (ob_type o0) || PyBool_Check (ob_type o0)
    || (in_ =? Py_None)%nat = false →
  PyObject_GetAttrString in_ "__html__" σ0 = Done (NULL, σ1) →
  PyErr_Clear σ1 = Done (tt, σ) →
  heap σ !! in_ = Some o →
  PyUnicode_Check (ob_type o) = true →
  unicode_at σ in_ s → ¬ clean s →
  Z.of_nat (length (escape_text s)) <= PY_SSIZE_T_MAX →
  alloc_ok σ (Z.of_nat (length (escape_text s))) = true →
  PyObject_Call markup [length (heap σ)] (with_new_unicode (escape_text s) σ)
    = Done (rv, σm) →
  heap σm !! length (heap σ)
    = heap (with_new_unicode (escape_text s) σ) !! length (heap σ) →
  escape in_ σ0 =
    (_Py_Dealloc (length (heap σ));; mret rv)
      (mkInterp
         (<[length (heap σ) :=
              mkPyObject 0 PyUnicode_Type
                (UnicodeData (Z.of_nat (length (escape_text s)))
                   (buffer (escape_text s)))]> (heap σm))
         (curexc σm)).
Proof.
  intros Ho0 Hcond Hattr Hclear Ho Hcheck Hin Hs Hfit Hok Hcall Hkept.
  unfold escape.
  rewrite (M_bind_done _ _ _ _ _ (Py_TYPE_done _ _ _ Ho0)), Hcond.
  rewrite (M_bind_done _ _ _ _ _ Hattr).
  rewrite (M_bind_done _ _ _ _ _ Hclear).
  rewrite (M_bind_done _ _ _ _ _ (Py_TYPE_done _ _ _ Ho)), Hcheck.
  cbn [negb].
  erewrite M_bind_done;
    [|by rewrite (escape_unicode_dirty σ in_ s Hin Hs Hfit), Hok].
  unfold PyObject_CallFunctionObjArgs. cbn [va_args].
  rewrite (M_bind_done _ _ _ _ _ Hcall).
  assert (heap σm !! length (heap σ)
          = Some (mkPyObject 1 PyUnicode_Type
                    (UnicodeData (Z.of_nat (length (escape_text s)))
                       (buffer (escape_text s))))) as Hm.
  { rewrite Hkept. unfold with_new_unicode. simpl.
    by rewrite lookup_app_r, Nat.sub_diag by done. }
  apply M_bind_same. by rewrite (Py_DECREF_last _ _ _ Hm).
Qed.

End EscapeReferences.

(** ** The two tables of [init_constants] (lines 26-37) *)

(** X9: the two tables agree, and exactly five slots are filled.  Both
    tables have 63 slots.  The slots of the code units 34, 38, 39, 60 and 62
    hold the five replacement buffers and the deltas 4, 4, 4, 3 and 3.  For
    every code unit below 63, either the slot of [escaped_chars_repl] is
    NULL, and then the delta is 0 and the code unit is none of the five; or
    it is a buffer, and then the code unit is one of the five, the delta is
    positive, and the buffer begins with an ampersand and holds one code
    unit more than the delta, none of them 0, then the terminator: the
    number of cells that the second pass copies from it (line 99). *)
Theorem tables_agree (c : Py_UNICODE) :
  (c < ESCAPED_CHARS_TABLE_SIZE)%N →
  (length escaped_chars_delta_len = 63%nat ∧
   length escaped_chars_repl = 63%nat) ∧
  (escaped_chars_repl !! idx QUOT = Some (Some (UNICHR "&#34;")) ∧
   escaped_chars_repl !! idx APOS = Some (Some (UNICHR "&#39;")) ∧
   escaped_chars_repl !! idx AMP = Some (Some (UNICHR "&amp;")) ∧
   escaped_chars_repl !! idx LT = Some (Some (UNICHR "&lt;")) ∧
   escaped_chars_repl !! idx GT = Some (Some (UNICHR "&gt;"))) ∧
  (escaped_chars_delta_len !! idx QUOT = Some 4 ∧
   escaped_chars_delta_len !! idx APOS = Some 4 ∧
   escaped_chars_delta_len !! idx AMP = Some 4 ∧
   escaped_chars_delta_len !! idx LT = Some 3 ∧
   escaped_chars_delta_len !! idx GT = Some 3) ∧
  ∃ d r,
    escaped_chars_delta_len !! idx c = Some d ∧
    escaped_chars_repl !! idx c = Some r ∧
    match r with
    | None => d = 0 ∧ c ∉ [QUOT; APOS; AMP; LT; GT]
    | Some buf =>
        c ∈ [QUOT; APOS; AMP; LT; GT] ∧
        0 < d ∧ Z.of_nat (length buf) = d + 2 ∧
        buf !! 0%nat = Some AMP ∧
        (0%N ∉ take (Z.to_nat (d + 1)) buf) ∧
        drop (Z.to_nat (d + 1)) buf = [0%N]
    end.
Proof.
  intros Hc.
  split; [by vm_compute|]. split; [by vm_compute|]. split; [by vm_compute|].
  assert (∃ n, c = N.of_nat n ∧ (n < 63)%nat) as (n & -> & Hn).
  { exists (N.to_nat c). unfold ESCAPED_CHARS_TABLE_SIZE in Hc. lia. }
  clear Hc.
  do 63 (destruct n as [|n];
         [eexists _, _; split; [by vm_compute|]; split; [by vm_compute|];
          cbv beta iota;
          repeat split;
          first [reflexivity | lia
                | by apply (bool_decide_unpack _); vm_compute]|]).
  lia.
Qed.

(** ** The further properties on concrete heaps *)

Lemma tables_agree_witness :
  ∃ d r,
    escaped_chars_delta_len !! idx AMP = Some d ∧
    escaped_chars_repl !! idx AMP = Some r ∧
    match r with
    | None => d = 0 ∧ AMP ∉ [QUOT; APOS; AMP; LT; GT]
    | Some buf =>
        AMP ∈ [QUOT; APOS; AMP; LT; GT] ∧
        0 < d ∧ Z.of_nat (length buf) = d + 2 ∧
        buf !! 0%nat = Some AMP ∧
        (0%N ∉ take (Z.to_nat (d + 1)) buf) ∧
        drop (Z.to_nat (d + 1)) buf = [0%N]
    end.
Proof.
  destruct (tables_agree AMP) as (_ & _ & _ & Hslot).
  - by vm_compute.
  - exact Hslot.
Defined.

Lemma first_pass_runs_to_first_nul_witness :
  @scan_pass ref_runtime 10 (text "ab" ++ text "<c" ++ 0%N :: [7%N])
    (Z.of_nat (length (text "ab"))) 0 0 0
  = Done (total_delta (text "ab" ++ text "<c"),
          match_count (text "ab" ++ text "<c")).
Proof.
  apply (@first_pass_runs_to_first_nul ref_runtime (text "ab") (text "<c")
           [7%N] 10).
  - intros c Hc ->.
    repeat (apply elem_of_cons in Hc as [Hc|Hc]; [discriminate|]).
    by apply elem_of_nil in Hc.
  - vm_compute. lia.
  - by vm_compute.
  - by vm_compute.
Defined.

Lemma escape_unicode_needs_terminator_witness :
  @escape_unicode ref_runtime 2%nat heap_unterminated = Fault OutOfBounds.
Proof.
  apply (@escape_unicode_needs_terminator ref_runtime heap_unterminated 2%nat
           (mkPyObject 1 PyUnicode_Type (UnicodeData 2 (text "ab")))
           (text "ab") []).
  - reflexivity.
  - reflexivity.
  - intros c Hc. by apply elem_of_nil in Hc.
  - by vm_compute.
  - by vm_compute.
Defined.

Lemma slow_path_allocates_one_object_witness :
  ∃ σ' o',
    @escape_unicode ref_runtime 2%nat (heap_with tom_and_jerry)
      = Done (Some (length (heap (heap_with tom_and_jerry))), σ') ∧
    heap σ' = heap (heap_with tom_and_jerry) ++ [o'] ∧
    ob_refcnt o' = 1 ∧ ob_type o' = PyUnicode_Type ∧
    ob_data o' = UnicodeData (Z.of_nat (length (escape_text tom_and_jerry)))
                   (buffer (escape_text tom_and_jerry)) ∧
    (∀ a o, heap (heap_with tom_and_jerry) !! a = Some o →
            heap σ' !! a = Some o) ∧
    curexc σ' = curexc (heap_with tom_and_jerry).
Proof.
  apply (@slow_path_allocates_one_object ref_runtime).
  - apply heap_with_at. by vm_compute.
  - intros Hclean. apply clean_match_count in Hclean.
    by vm_compute in Hclean.
  - by vm_compute.
  - by vm_compute.
Defined.

Lemma same_object_iff_clean_witness :
  ∃ out σ' t,
    @escape_unicode ref_runtime 2%nat (heap_with tom_and_jerry)
      = Done (Some out, σ') ∧
    @unicode_at ref_runtime σ' out t ∧
    (out = 2%nat ↔ clean tom_and_jerry) ∧
    (length t = length tom_and_jerry ↔ clean tom_and_jerry) ∧
    Z.of_nat (length tom_and_jerry) + 3 * match_count tom_and_jerry
      <= Z.of_nat (length t)
      <= Z.of_nat (length tom_and_jerry) + 4 * match_count tom_and_jerry ∧
    (length tom_and_jerry <= length t <= 5 * length tom_and_jerry)%nat.
Proof.
  apply (@same_object_iff_clean ref_runtime).
  - apply heap_with_at. by vm_compute.
  - apply ref_allocatable. by vm_compute.
Defined.

Lemma escape_unicode_injective_witness : text "a&" = text "a&".
Proof.
  apply (@escape_unicode_injective ref_runtime
           (heap_with (text "a&")) 2%nat (text "a&")
           heap_with_parts 2%nat (text "a&")
           3%nat 5%nat
           (with_new_unicode (escape_text (text "a&")) (heap_with (text "a&")))
           (with_new_unicode (escape_text (text "a&")) heap_with_parts)
           (escape_text (text "a&"))).
  - apply heap_with_at. by vm_compute.
  - eapply ref_unicode_at; [reflexivity|by vm_compute].
  - by vm_compute.
  - by vm_compute.
  - by vm_compute.
  - eapply ref_unicode_at; [reflexivity|by vm_compute].
  - by vm_compute.
  - eapply ref_unicode_at; [reflexivity|by vm_compute].
Defined.

Lemma escape_unicode_concat_witness :
  escape_text (text "a&<b")
  = escape_text (text "a&") ++ escape_text (text "<b").
Proof.
  apply (@escape_unicode_concat ref_runtime heap_with_parts
           2%nat 3%nat 4%nat (text "a&") (text "<b") 5%nat 5%nat 5%nat
           (with_new_unicode (escape_text (text "a&")) heap_with_parts)
           (with_new_unicode (escape_text (text "<b")) heap_with_parts)
           (with_new_unicode (escape_text (text "a&<b")) heap_with_parts)).
  - eapply ref_unicode_at; [reflexivity|by vm_compute].
  - eapply ref_unicode_at; [reflexivity|by vm_compute].
  - eapply ref_unicode_at; [reflexivity|by vm_compute].
  - by vm_compute.
  - by vm_compute.
  - eapply ref_unicode_at; [reflexivity|by vm_compute].
  - by vm_compute.
  - eapply ref_unicode_at; [reflexivity|by vm_compute].
  - by vm_compute.
  - eapply ref_unicode_at; [reflexivity|by vm_compute].
Defined.

Lemma html_result_is_returned_as_is_witness :
  @escape ref_runtime 2%nat heap_with_markup
  = (rv ← @PyObject_Call ref_runtime (Some 3%nat) [];
     @Py_DECREF ref_runtime (Some 3%nat);; mret rv)
      (mkInterp
         (heap heap_with_markup
          ++ [mkPyObject 1 PyBaseObject_Type (MethodData 2)]) None).
Proof.
  apply (@html_result_is_returned_as_is ref_runtime heap_with_markup _ 2%nat
           (ref_unicode Markup_Type "<b>") 3%nat); reflexivity.
Defined.

Lemma escape_after_failed_allocation_witness :
  @escape no_memory 2%nat (heap_with tom_and_jerry)
  = match @PyObject_Call no_memory (@markup no_memory) []
            (with_MemoryError (heap_with tom_and_jerry)) with
    | Done _ => Fault NullDeref
    | Fault f => Fault f
    end.
Proof.
  apply (@escape_after_failed_allocation no_memory
           (heap_with tom_and_jerry)
           (mkInterp (heap (heap_with tom_and_jerry))
              (Some PyExc_AttributeError))
           (heap_with tom_and_jerry) 2%nat
           (ref_unicode_of PyUnicode_Type tom_and_jerry)
           (ref_unicode_of PyUnicode_Type tom_and_jerry) tom_and_jerry);
    try reflexivity.
  - by exists (ref_unicode_of PyUnicode_Type tom_and_jerry).
  - intros Hclean. apply clean_match_count in Hclean.
    by vm_compute in Hclean.
  - by vm_compute.
Defined.


Lemma escape_releases_the_copy_witness :
  @escape ref_runtime 2%nat (heap_with tom_and_jerry)
  = (@_Py_Dealloc ref_runtime 3%nat;; mret (Some 4%nat))
      (mkInterp
         (heap (heap_with tom_and_jerry)
          ++ [mkPyObject 0 PyUnicode_Type
                (UnicodeData (Z.of_nat (length (escape_text tom_and_jerry)))
                   (buffer (escape_text tom_and_jerry)));
              ref_unicode_of Markup_Type (escape_text tom_and_jerry)]) None).
Proof.
  apply (@escape_releases_the_copy ref_runtime
           (heap_with tom_and_jerry)
           (mkInterp (heap (heap_with tom_and_jerry))
              (Some PyExc_AttributeError))
           (heap_with tom_and_jerry) 2%nat
           (ref_unicode_of PyUnicode_Type tom_and_jerry)
           (ref_unicode_of PyUnicode_Type tom_and_jerry) tom_and_jerry
           (Some 4%nat)
           (mkInterp
              (heap (with_new_unicode (escape_text tom_and_jerry)
                       (heap_with tom_and_jerry))
               ++ [ref_unicode_of Markup_Type (escape_text tom_and_jerry)])
              None));
    try reflexivity.
  - by exists (ref_unicode_of PyUnicode_Type tom_and_jerry).
  - intros Hclean. apply clean_match_count in Hclean.
    by vm_compute in Hclean.
  - by vm_compute.
Defined.

Module TracebackWitnesses.
Import Traceback.

Lemma tb_set_next_failure_witness :
  @tb_set_next ref_runtime [1; 3]%nat two_tracebacks
    = Done (NULL, mkInterp (heap two_tracebacks) (Some PyExc_TypeError)) ∧
  heap (mkInterp (heap two_tracebacks) (Some PyExc_TypeError))
    = heap two_tracebacks.
Proof.
  split; [reflexivity|].
  apply (@TracebackLinks.tb_set_next_failure ref_runtime [1; 3]%nat
           two_tracebacks
           (mkInterp (heap two_tracebacks) (Some PyExc_TypeError))).
  reflexivity.
Defined.

Lemma tb_set_next_links_witness :
  ∃ σ',
    @tb_set_next ref_runtime [1; 2]%nat two_tracebacks
      = Done (Some (@Py_None ref_runtime), σ') ∧
    tb_next_of σ' 1%nat = Some (Some 2%nat).
Proof.
  destruct (@TracebackLinks.tb_set_next_links ref_runtime two_tracebacks
              1%nat 2%nat NULL (Some 2%nat))
    as (σ' & Hrun & Hnext & _);
    [done|done|by eexists|by right|done|by exists σ'].
Defined.

Lemma tb_set_next_same_link_witness :
  ∃ σ',
    @tb_set_next ref_runtime [1; 2]%nat linked
      = Done (Some (@Py_None ref_runtime), σ') ∧
    ∀ a, tb_next_of σ' a = tb_next_of linked a.
Proof.
  destruct (@TracebackLinks.tb_set_next_same_link ref_runtime linked
              1%nat 2%nat 1)
    as (σ' & Hrun & Hnext & _);
    [done|done|done|done|by eexists|done|done|by exists σ'].
Defined.

End TracebackWitnesses.
